(** * Notifications backend: messaging permissions, recipient resolution,
      like toggles, comment counters, notification writes and conversation
      assembly.

    The repository holds two implementations of the same domain:
    - the Express controllers over a Prisma client
      (src/controllers/*.ts, src/middleware/auth.middleware.ts), embedded in
      [Module Express];
    - the Convex queries and mutations (convex/), embedded in
      [Module Convex].

    Conventions of the embedding.
    - JavaScript strings are [string]; a value of type [string | null] (or an
      optional field) is [option string]; counters are [Z].
    - Row identifiers minted by the store (cuid / Convex Id) are opaque in the
      source; they are [nat] here, drawn from a counter kept in the store.
      User ids stay strings, as they are stored inside [likedBy] arrays.
    - The clock ([Date.now()], [@default(now())]) is an argument [now] of
      every operation that creates a row.
    - A store call of the Prisma client either returns or throws; the
      controllers open no transaction, so a throw leaves in place what the
      earlier calls of the same handler wrote, and the store calls of other
      requests run between two calls of one handler ([Express.running]).
      A Convex mutation is one transaction of the platform.
    - [console.error] appends a line to the [console] kept with the
      database. *)

From Stdlib Require Import ZArith String List Bool Lia Permutation Sorted.
From stdpp Require Import base option list gmap strings fin_maps.
Import ListNotations.
Local Open Scope string_scope.
Local Open Scope list_scope.
Local Open Scope Z_scope.

(** ** JavaScript helpers shared by both implementations *)

(** [a === b] on values of type [string | null]. *)
Definition strict_eq (a b : option string) : bool :=
  match a, b with
  | Some x, Some y => String.eqb x y
  | None, None => true
  | _, _ => false
  end.

(** Truthiness of an optional string: [undefined], [null] and the empty
    string are falsy. *)
Definition truthy (s : option string) : bool :=
  match s with
  | Some x => negb (String.eqb x "")
  | None => false
  end.

(** [s || d] where [d] is a string. *)
Definition or_else (s : option string) (d : string) : string :=
  match s with
  | Some x => if String.eqb x "" then d else x
  | None => d
  end.

(** [s || null] and [s || undefined]. *)
Definition or_null (s : option string) : option string :=
  if truthy s then s else None.

(** [xs.includes(x)] on an array of strings. *)
Fixpoint includes (xs : list string) (x : string) : bool :=
  match xs with
  | [] => false
  | y :: ys => String.eqb y x || includes ys x
  end.

(** [xs.filter(id => id !== x)]. *)
Fixpoint without (xs : list string) (x : string) : list string :=
  match xs with
  | [] => []
  | y :: ys => if String.eqb y x then without ys x else y :: without ys x
  end.

(** [Array.prototype.sort] with the comparator [(a, b) => key a - key b]:
    the sort is stable, so it is determined by the comparator; it is written
    here as the insertion of each element after the elements that do not
    compare greater. *)
Section StableSort.
Context {A : Type} (key : A -> Z).

Fixpoint insert_by (x : A) (l : list A) : list A :=
  match l with
  | [] => [x]
  | y :: l' => if Z.ltb (key x) (key y) then x :: y :: l' else y :: insert_by x l'
  end.

Definition sort_by (l : list A) : list A :=
  fold_left (fun acc x => insert_by x acc) l [].
End StableSort.

(** ** Effects

    A computation over a store of type [S] ends by returning a value or by
    throwing; either way it leaves a store behind. *)

Inductive Outcome (A : Type) : Type :=
| Returned (a : A)
| Thrown (e : string).
Arguments Returned {A} a.
Arguments Thrown {A} e.

Definition Eff (S A : Type) : Type := S -> S * Outcome A.

Definition ret {S A} (a : A) : Eff S A := fun s => (s, Returned a).

Definition throw {S A} (e : string) : Eff S A := fun s => (s, Thrown e).

Definition bind {S A B} (m : Eff S A) (k : A -> Eff S B) : Eff S B :=
  fun s =>
    match m s with
    | (s', Returned a) => k a s'
    | (s', Thrown e) => (s', Thrown e)
    end.

Notation "'let*' x ':=' m 'in' k" := (bind m (fun x => k))
  (at level 10, x pattern, m at level 100, k at level 200).

(** [try { body } catch (error) { handler error }]. *)
Definition catch {S A} (body : Eff S A) (handler : string -> Eff S A) : Eff S A :=
  fun s =>
    match body s with
    | (s', Returned a) => (s', Returned a)
    | (s', Thrown e) => handler e s'
    end.

(** ** The Express controllers over Prisma *)

Module Express.

(** The columns of [User] that the controllers read. *)
Record User := mkUser {
  user_id : string;
  user_role : string;
  user_branch : option string
}.

Record Message := mkMessage {
  msg_id : nat;
  msg_senderId : string;
  msg_content : string;
  msg_messageType : string;
  msg_targetRole : option string;
  msg_targetBranch : option string;
  msg_recipients : list string;
  msg_isRead : bool;
  msg_createdAt : Z
}.

Record Post := mkPost {
  post_authorId : string;
  post_content : string;
  post_mediaUrl : option string;
  post_mediaType : option string;
  post_likes : Z;
  post_likedBy : list string;
  post_commentCount : Z;
  post_createdAt : Z
}.

Record Comment := mkComment {
  comment_postId : nat;
  comment_authorId : string;
  comment_content : string;
  comment_likes : Z;
  comment_likedBy : list string;
  comment_createdAt : Z
}.

Record Notification := mkNotification {
  notif_userId : string;
  notif_type : string;
  notif_referenceId : string;
  notif_content : string;
  notif_isRead : bool;
  notif_createdAt : Z
}.

(** The database behind the Prisma client, together with the process
    console.  [users] and [messages] are in the order in which the store
    lists its rows. *)
Record Db := mkDb {
  users : list User;
  messages : list Message;
  posts : gmap nat Post;
  comments : gmap nat Comment;
  notifications : gmap nat Notification;
  next_id : nat;
  console : list string
}.

Definition empty_db : Db := mkDb [] [] ∅ ∅ ∅ 0 [].

Definition with_messages (db : Db) (v : list Message) : Db :=
  mkDb (users db) v (posts db) (comments db) (notifications db) (next_id db) (console db).
Definition with_posts (db : Db) (v : gmap nat Post) : Db :=
  mkDb (users db) (messages db) v (comments db) (notifications db) (next_id db) (console db).
Definition with_comments (db : Db) (v : gmap nat Comment) : Db :=
  mkDb (users db) (messages db) (posts db) v (notifications db) (next_id db) (console db).
Definition with_notifications (db : Db) (v : gmap nat Notification) : Db :=
  mkDb (users db) (messages db) (posts db) (comments db) v (next_id db) (console db).
Definition with_next_id (db : Db) (v : nat) : Db :=
  mkDb (users db) (messages db) (posts db) (comments db) (notifications db) v (console db).

(** [console.error(label, error)]. *)
Definition console_error (label e : string) (db : Db) : Db :=
  mkDb (users db) (messages db) (posts db) (comments db) (notifications db)
       (next_id db) (console db ++ [String.append label (String.append " " e)]).

(** *** The Prisma client

    A call [await prisma.model.action(...)] either returns a value or throws.
    It throws when the store itself fails (connection lost, constraint
    violated, ...): which calls fail is given by the environment [F], one
    entry per call site kind, and a failed call writes nothing.  It also
    throws, as the client documents, when [update], [delete] or a nested
    [connect] names a row that does not exist. *)

Definition Prisma (A : Type) : Type := Eff Db A.

Inductive Call :=
| UserFindMany
| MessageCreate | MessageUpdate | MessageFindMany
| PostCreate | PostFindUnique | PostUpdate
| CommentCreate | CommentFindUnique | CommentUpdate | CommentDelete
| NotificationCreate | NotificationFindUnique | NotificationUpdate
| NotificationDelete.

Definition Faults := Call -> option string.

Definition no_faults : Faults := fun _ => None.

Definition record_not_found : string :=
  "An operation failed because it depends on one or more records that were required but not found.".

Inductive Payload :=
| NoData
| MessageData (m : Message)
| MessagesData (ms : list Message)
| PostData (p : Post)
| CommentData (c : Comment)
| NotificationData (n : Notification).

(** [res.status(status).json({ message, ...payload })]. *)
Record Response := mkResponse {
  status : nat;
  message : string;
  payload : Payload
}.

Definition reply (st : nat) (msg : string) : Response := mkResponse st msg NoData.

(** The [where] argument of [prisma.user.findMany]: an absent key does not
    filter; [branch: null] selects the rows whose branch is null. *)
Record UserWhere := mkUserWhere {
  where_role : option string;
  where_branch : option (option string)
}.

Definition user_matches (w : UserWhere) (u : User) : bool :=
  match where_role w with
  | Some r => String.eqb (user_role u) r
  | None => true
  end &&
  match where_branch w with
  | Some b => strict_eq (user_branch u) b
  | None => true
  end.

(** [connect] on the many-to-many relation [recipients]: linking a user
    that is already linked changes nothing. *)
Definition connect (cur ids : list string) : list string :=
  fold_left (fun acc i => if includes acc i then acc else acc ++ [i]) ids cur.

Definition is_user (db : Db) (id : string) : bool :=
  existsb (fun u => String.eqb (user_id u) id) (users db).

Definition find_message (db : Db) (id : nat) : option Message :=
  List.find (fun m => Nat.eqb (msg_id m) id) (messages db).

Definition set_recipients (m : Message) (rs : list string) : Message :=
  mkMessage (msg_id m) (msg_senderId m) (msg_content m) (msg_messageType m)
    (msg_targetRole m) (msg_targetBranch m) rs (msg_isRead m) (msg_createdAt m).

(** Modelled from the spec: prisma/schema.prisma is not part of the sources;
    the column defaults of a new Post and a new Comment are the spec's
    starting point [likes = 0], [likedBy = []], and [commentCount = 0], as in
    the Convex mutations [createPost] and [createComment]. *)
Definition default_likes : Z := 0.
Definition default_likedBy : list string := [].
Definition default_commentCount : Z := 0.

(** *** middleware/auth.middleware.ts *)

Definition validateMessagePermissions
    (sender : User) (targetRole : string) (targetBranch : option string) : bool :=
  if String.eqb (user_role sender) "OFFICIAL" then true
  else if String.eqb (user_role sender) "TEACHER" then
    String.eqb targetRole "STUDENT" && strict_eq targetBranch (user_branch sender)
  else if String.eqb (user_role sender) "STUDENT" then
    String.eqb targetRole "STUDENT"
  else false.

Section WithStore.
Variable F : Faults.

Definition call {A} (c : Call) (op : Prisma A) : Prisma A :=
  fun db =>
    match F c with
    | Some e => (db, Thrown e)
    | None => op db
    end.

Definition user_findMany (w : UserWhere) : Prisma (list User) :=
  call UserFindMany (fun db => (db, Returned (List.filter (user_matches w) (users db)))).

Definition message_create (senderId content messageType : string)
    (targetRole targetBranch : option string) (now : Z) : Prisma Message :=
  call MessageCreate (fun db =>
    let m := mkMessage (next_id db) senderId content messageType
               targetRole targetBranch [] false now in
    (with_next_id (with_messages db (messages db ++ [m])) (S (next_id db)),
     Returned m)).

Definition message_update_connect (id : nat) (ids : list string) : Prisma Message :=
  call MessageUpdate (fun db =>
    match find_message db id with
    | Some m =>
        if forallb (is_user db) ids then
          let m' := set_recipients m (connect (msg_recipients m) ids) in
          (with_messages db
             (List.map (fun x => if Nat.eqb (msg_id x) id then m' else x) (messages db)),
           Returned m')
        else (db, Thrown record_not_found)
    | None => (db, Thrown record_not_found)
    end).

(** [findMany({ where, orderBy: { createdAt: 'asc' } })].  The database
    sorts; rows with equal [createdAt] come back in the order the table
    holds them (SQL leaves that order open). *)
Definition message_findMany_asc (w : Message -> bool) : Prisma (list Message) :=
  call MessageFindMany (fun db =>
    (db, Returned (sort_by msg_createdAt (List.filter w (messages db))))).

Definition post_create (authorId content : string)
    (mediaUrl mediaType : option string) (now : Z) : Prisma (nat * Post) :=
  call PostCreate (fun db =>
    let p := mkPost authorId content mediaUrl mediaType
               default_likes default_likedBy default_commentCount now in
    (with_next_id (with_posts db (<[next_id db := p]> (posts db))) (S (next_id db)),
     Returned (next_id db, p))).

Definition post_findUnique (id : nat) : Prisma (option Post) :=
  call PostFindUnique (fun db => (db, Returned (posts db !! id))).

Definition post_update (id : nat) (f : Post -> Post) : Prisma Post :=
  call PostUpdate (fun db =>
    match posts db !! id with
    | Some cur => (with_posts db (<[id := f cur]> (posts db)), Returned (f cur))
    | None => (db, Thrown record_not_found)
    end).

Definition comment_create (postId : nat) (authorId content : string) (now : Z)
    : Prisma (nat * Comment) :=
  call CommentCreate (fun db =>
    let c := mkComment postId authorId content default_likes default_likedBy now in
    (with_next_id (with_comments db (<[next_id db := c]> (comments db))) (S (next_id db)),
     Returned (next_id db, c))).

Definition comment_findUnique (id : nat) : Prisma (option Comment) :=
  call CommentFindUnique (fun db => (db, Returned (comments db !! id))).

Definition comment_update (id : nat) (f : Comment -> Comment) : Prisma Comment :=
  call CommentUpdate (fun db =>
    match comments db !! id with
    | Some cur => (with_comments db (<[id := f cur]> (comments db)), Returned (f cur))
    | None => (db, Thrown record_not_found)
    end).

Definition comment_delete (id : nat) : Prisma Comment :=
  call CommentDelete (fun db =>
    match comments db !! id with
    | Some cur => (with_comments db (delete id (comments db)), Returned cur)
    | None => (db, Thrown record_not_found)
    end).

Definition notification_create (userId type referenceId content : string) (now : Z)
    : Prisma (nat * Notification) :=
  call NotificationCreate (fun db =>
    let n := mkNotification userId type referenceId content false now in
    (with_next_id (with_notifications db (<[next_id db := n]> (notifications db)))
       (S (next_id db)),
     Returned (next_id db, n))).

Definition notification_findUnique (id : nat) : Prisma (option Notification) :=
  call NotificationFindUnique (fun db => (db, Returned (notifications db !! id))).

Definition notification_update (id : nat) (f : Notification -> Notification)
    : Prisma Notification :=
  call NotificationUpdate (fun db =>
    match notifications db !! id with
    | Some cur =>
        (with_notifications db (<[id := f cur]> (notifications db)), Returned (f cur))
    | None => (db, Thrown record_not_found)
    end).

Definition notification_delete (id : nat) : Prisma Notification :=
  call NotificationDelete (fun db =>
    match notifications db !! id with
    | Some cur => (with_notifications db (delete id (notifications db)), Returned cur)
    | None => (db, Thrown record_not_found)
    end).

Definition log_error (label e : string) : Prisma unit :=
  fun db => (console_error label e db, Returned tt).

(** The [catch] block shared by every controller:
    [console.error(label, error);
     res.status(500).json({ message: 'Internal server error' })]. *)
Definition internal_error (label e : string) : Prisma Response :=
  let* _ := log_error label e in
  ret (reply 500 "Internal server error").

(** *** controllers/message.controller.ts *)

Record SendMessageBody := mkSendMessageBody {
  body_content : option string;
  body_targetRole : option string;
  body_targetBranch : option string;
  body_recipientIds : option (list string)
}.

Record SendMessageData := mkSendMessageData {
  content : string;
  targetRole : option string;
  targetBranch : option string;
  recipientIds : option (list string)
}.

(** [sendMessageSchema.safeParse(req.body)]: [content] is a string of at
    least one character, [targetRole] if present is STUDENT or TEACHER. *)
Definition sendMessageSchema (b : SendMessageBody) : option SendMessageData :=
  match body_content b with
  | Some c =>
      if Nat.leb 1 (String.length c) &&
         match body_targetRole b with
         | Some r => String.eqb r "STUDENT" || String.eqb r "TEACHER"
         | None => true
         end
      then Some (mkSendMessageData c (body_targetRole b) (body_targetBranch b)
                   (body_recipientIds b))
      else None
  | None => None
  end.

(** Lines 41-70 of [sendMessage]: the message type and the recipient ids. *)
Definition resolveRecipients (user : User) (d : SendMessageData)
    : Prisma (string * list string) :=
  match recipientIds d with
  | Some (r :: rs) => ret ("INDIVIDUAL", r :: rs)
  | _ =>
      if truthy (targetRole d) then
        let recipientFilter :=
          mkUserWhere (targetRole d)
            (if truthy (targetBranch d) then Some (targetBranch d)
             else if String.eqb (user_role user) "OFFICIAL" then None
             else if String.eqb (user_role user) "TEACHER" then Some (user_branch user)
             else None) in
        let* recipientUsers := user_findMany recipientFilter in
        ret ("GROUP", List.map user_id recipientUsers)
      else ret ("INDIVIDUAL", [])
  end.

Definition sendMessage (user : option User) (body : SendMessageBody) (now : Z)
    : Prisma Response :=
  catch
    (match user with
     | None => ret (reply 401 "Authentication required")
     | Some u =>
         match sendMessageSchema body with
         | None => ret (reply 400 "Validation error")
         | Some d =>
             if negb (validateMessagePermissions u
                        (or_else (targetRole d) "STUDENT") (or_null (targetBranch d)))
             then ret (reply 403 "Insufficient permissions to send message")
             else
               let* (messageType, recipients) := resolveRecipients u d in
               let* message :=
                 message_create (user_id u) (content d) messageType
                   (or_null (targetRole d)) (or_null (targetBranch d)) now in
               let* _ :=
                 if Nat.ltb 0 (length recipients)
                 then let* _ := message_update_connect (msg_id message) recipients in
                      ret tt
                 else ret tt in
               ret (mkResponse 201 "Message sent successfully" (MessageData message))
         end
     end)
    (internal_error "Send message error:").

Definition getConversationWithUser (user : option User) (userId : string)
    : Prisma Response :=
  catch
    (match user with
     | None => ret (reply 401 "Authentication required")
     | Some u =>
         let* messages :=
           message_findMany_asc (fun m =>
             (String.eqb (msg_senderId m) (user_id u)
              && includes (msg_recipients m) userId)
             || (String.eqb (msg_senderId m) userId
                 && includes (msg_recipients m) (user_id u))) in
         ret (mkResponse 200 "" (MessagesData messages))
     end)
    (internal_error "Get conversation with user error:").

(** *** controllers/post.controller.ts *)

(** [z.object({ content: z.string().min(1) })], used by [createPostSchema]
    and [createCommentSchema]. *)
Definition contentSchema (c : option string) : option string :=
  match c with
  | Some x => if Nat.leb 1 (String.length x) then Some x else None
  | None => None
  end.

(** [file] is [req.file] reduced to [(filename, mimetype)]. *)
Definition createPost (user : option User) (body_content : option string)
    (file : option (string * string)) (now : Z) : Prisma Response :=
  catch
    (match user with
     | None => ret (reply 401 "Authentication required")
     | Some u =>
         match contentSchema body_content with
         | None => ret (reply 400 "Validation error")
         | Some c =>
             let mediaUrl :=
               match file with
               | Some (filename, _) => Some (String.append "/uploads/" filename)
               | None => None
               end in
             let mediaType :=
               match file with
               | Some (_, mimetype) =>
                   Some (if String.prefix "image/" mimetype then "image" else "video")
               | None => None
               end in
             let* (_, post) := post_create (user_id u) c mediaUrl mediaType now in
             ret (mkResponse 201 "Post created successfully" (PostData post))
         end
     end)
    (internal_error "Create post error:").

Definition set_post_likes (cur : Post) (likes : Z) (likedBy : list string) : Post :=
  mkPost (post_authorId cur) (post_content cur) (post_mediaUrl cur)
    (post_mediaType cur) likes likedBy (post_commentCount cur) (post_createdAt cur).

Definition set_post_commentCount (cur : Post) (n : Z) : Post :=
  mkPost (post_authorId cur) (post_content cur) (post_mediaUrl cur)
    (post_mediaType cur) (post_likes cur) (post_likedBy cur) n (post_createdAt cur).

Definition set_comment_likes (cur : Comment) (likes : Z) (likedBy : list string)
    : Comment :=
  mkComment (comment_postId cur) (comment_authorId cur) (comment_content cur)
    likes likedBy (comment_createdAt cur).

(** [likes] is updated relative to the stored row ([increment] /
    [decrement]); [likedBy] is [set] from the row read by [findUnique], or
    [push]ed onto the stored array. *)
Definition likePost (user : option User) (id : nat) : Prisma Response :=
  catch
    (match user with
     | None => ret (reply 401 "Authentication required")
     | Some u =>
         let* found := post_findUnique id in
         match found with
         | None => ret (reply 404 "Post not found")
         | Some post =>
             let hasLiked := includes (post_likedBy post) (user_id u) in
             let* updatedPost :=
               post_update id (fun cur =>
                 set_post_likes cur
                   (if hasLiked then post_likes cur - 1 else post_likes cur + 1)
                   (if hasLiked then without (post_likedBy post) (user_id u)
                    else post_likedBy cur ++ [user_id u])) in
             ret (mkResponse 200 (if hasLiked then "Post unliked" else "Post liked")
                    (PostData updatedPost))
         end
     end)
    (internal_error "Like post error:").

Definition createComment (user : option User) (postId : nat)
    (body_content : option string) (now : Z) : Prisma Response :=
  catch
    (match user with
     | None => ret (reply 401 "Authentication required")
     | Some u =>
         match contentSchema body_content with
         | None => ret (reply 400 "Validation error")
         | Some c =>
             let* found := post_findUnique postId in
             match found with
             | None => ret (reply 404 "Post not found")
             | Some _ =>
                 let* (_, comment) := comment_create postId (user_id u) c now in
                 let* _ :=
                   post_update postId (fun cur =>
                     set_post_commentCount cur (post_commentCount cur + 1)) in
                 ret (mkResponse 201 "Comment created successfully"
                        (CommentData comment))
             end
         end
     end)
    (internal_error "Create comment error:").

Definition deleteComment (user : option User) (id : nat) : Prisma Response :=
  catch
    (match user with
     | None => ret (reply 401 "Authentication required")
     | Some u =>
         let* found := comment_findUnique id in
         match found with
         | None => ret (reply 404 "Comment not found")
         | Some existingComment =>
             if negb (String.eqb (comment_authorId existingComment) (user_id u))
             then ret (reply 403 "Insufficient permissions")
             else
               let postId := comment_postId existingComment in
               let* _ := comment_delete id in
               let* _ :=
                 post_update postId (fun cur =>
                   set_post_commentCount cur (post_commentCount cur - 1)) in
               ret (reply 200 "Comment deleted successfully")
         end
     end)
    (internal_error "Delete comment error:").

Definition likeComment (user : option User) (id : nat) : Prisma Response :=
  catch
    (match user with
     | None => ret (reply 401 "Authentication required")
     | Some u =>
         let* found := comment_findUnique id in
         match found with
         | None => ret (reply 404 "Comment not found")
         | Some comment =>
             let hasLiked := includes (comment_likedBy comment) (user_id u) in
             let* updatedComment :=
               comment_update id (fun cur =>
                 set_comment_likes cur
                   (if hasLiked then comment_likes cur - 1 else comment_likes cur + 1)
                   (if hasLiked then without (comment_likedBy comment) (user_id u)
                    else comment_likedBy cur ++ [user_id u])) in
             ret (mkResponse 200
                    (if hasLiked then "Comment unliked" else "Comment liked")
                    (CommentData updatedComment))
         end
     end)
    (internal_error "Like comment error:").

(** *** controllers/notification.controller.ts *)

Definition set_notif_isRead (n : Notification) (b : bool) : Notification :=
  mkNotification (notif_userId n) (notif_type n) (notif_referenceId n)
    (notif_content n) b (notif_createdAt n).

Definition markNotificationAsRead (user : option User) (id : nat) : Prisma Response :=
  catch
    (match user with
     | None => ret (reply 401 "Authentication required")
     | Some u =>
         let* found := notification_findUnique id in
         match found with
         | None => ret (reply 404 "Notification not found")
         | Some existingNotification =>
             if negb (String.eqb (notif_userId existingNotification) (user_id u))
             then ret (reply 403 "Insufficient permissions")
             else
               let* notification :=
                 notification_update id (fun cur => set_notif_isRead cur true) in
               ret (mkResponse 200 "Notification marked as read"
                      (NotificationData notification))
         end
     end)
    (internal_error "Mark notification as read error:").

Definition deleteNotification (user : option User) (id : nat) : Prisma Response :=
  catch
    (match user with
     | None => ret (reply 401 "Authentication required")
     | Some u =>
         let* found := notification_findUnique id in
         match found with
         | None => ret (reply 404 "Notification not found")
         | Some existingNotification =>
             if negb (String.eqb (notif_userId existingNotification) (user_id u))
             then ret (reply 403 "Insufficient permissions")
             else
               let* _ := notification_delete id in
               ret (reply 200 "Notification deleted successfully")
         end
     end)
    (internal_error "Delete notification error:").

Definition createNotification (userId type referenceId content : string) (now : Z)
    : Prisma unit :=
  catch
    (let* _ := notification_create userId type referenceId content now in
     ret tt)
    (log_error "Create notification error:").

End WithStore.

(** *** routes/post.routes.ts: the engagement requests

    [POST /], [POST /:id/like], [POST /:postId/comments],
    [POST /comments/:id/like] and [DELETE /comments/:id]; [user] is
    [req.user] as set by [authenticate]. *)
Inductive Request :=
| CreatePost (user : option User) (body_content : option string)
    (file : option (string * string)) (now : Z)
| LikePost (user : option User) (id : nat)
| CreateComment (user : option User) (postId : nat) (body_content : option string)
    (now : Z)
| LikeComment (user : option User) (id : nat)
| DeleteComment (user : option User) (id : nat).

Definition handle (F : Faults) (r : Request) : Prisma Response :=
  match r with
  | CreatePost user c file now => createPost F user c file now
  | LikePost user id => likePost F user id
  | CreateComment user postId c now => createComment F user postId c now
  | LikeComment user id => likeComment F user id
  | DeleteComment user id => deleteComment F user id
  end.

(** A database before any post or comment exists. *)
Definition initial (db : Db) : Prop := posts db = ∅ /\ comments db = ∅.

(** The databases reached when every request is answered before the next
    one starts, whatever the store failures met on the way. *)
Inductive in_turn : Db -> Prop :=
| in_turn_initial db : initial db -> in_turn db
| in_turn_step F r db : in_turn db -> in_turn (fst (handle F r db)).

(** *** Requests in flight

    The server does not answer one request before it starts the next: a
    handler gives way at every [await], and the store calls of the other
    requests run between two store calls of one handler (no controller
    opens a transaction).  A request in flight is what is left of its
    handler: the response it sent, or its next store call with what
    follows it. *)
#[warnings="-register-all"]
Inductive Task :=
| Sent (r : Response)
| Await (next : Db -> Db * Task).

(** One stretch of a [try] body, up to the next [await] or the response;
    an exception goes to the [catch] block of the controller. *)
Definition stretch (label : string) (body : Prisma Task) : Db -> Db * Task :=
  fun db =>
    match body db with
    | (db', Returned t) => (db', t)
    | (db', Thrown e) =>
        (console_error label e db', Sent (reply 500 "Internal server error"))
    end.

Section Awaits.
Variable F : Faults.

Definition createPost_awaits (user : option User) (body_content : option string)
    (file : option (string * string)) (now : Z) : Task :=
  match user with
  | None => Sent (reply 401 "Authentication required")
  | Some u =>
      match contentSchema body_content with
      | None => Sent (reply 400 "Validation error")
      | Some c =>
          let mediaUrl :=
            match file with
            | Some (filename, _) => Some (String.append "/uploads/" filename)
            | None => None
            end in
          let mediaType :=
            match file with
            | Some (_, mimetype) =>
                Some (if String.prefix "image/" mimetype then "image" else "video")
            | None => None
            end in
          Await (stretch "Create post error:"
            (let* (_, post) := post_create F (user_id u) c mediaUrl mediaType now in
             ret (Sent (mkResponse 201 "Post created successfully" (PostData post)))))
      end
  end.

Definition likePost_awaits (user : option User) (id : nat) : Task :=
  match user with
  | None => Sent (reply 401 "Authentication required")
  | Some u =>
      Await (stretch "Like post error:"
        (let* found := post_findUnique F id in
         match found with
         | None => ret (Sent (reply 404 "Post not found"))
         | Some post =>
             let hasLiked := includes (post_likedBy post) (user_id u) in
             ret (Await (stretch "Like post error:"
               (let* updatedPost :=
                  post_update F id (fun cur =>
                    set_post_likes cur
                      (if hasLiked then post_likes cur - 1 else post_likes cur + 1)
                      (if hasLiked then without (post_likedBy post) (user_id u)
                       else post_likedBy cur ++ [user_id u])) in
                ret (Sent (mkResponse 200
                             (if hasLiked then "Post unliked" else "Post liked")
                             (PostData updatedPost))))))
         end))
  end.

Definition createComment_awaits (user : option User) (postId : nat)
    (body_content : option string) (now : Z) : Task :=
  match user with
  | None => Sent (reply 401 "Authentication required")
  | Some u =>
      match contentSchema body_content with
      | None => Sent (reply 400 "Validation error")
      | Some c =>
          Await (stretch "Create comment error:"
            (let* found := post_findUnique F postId in
             match found with
             | None => ret (Sent (reply 404 "Post not found"))
             | Some _ =>
                 ret (Await (stretch "Create comment error:"
                   (let* (_, comment) := comment_create F postId (user_id u) c now in
                    ret (Await (stretch "Create comment error:"
                      (let* _ :=
                         post_update F postId (fun cur =>
                           set_post_commentCount cur (post_commentCount cur + 1)) in
                       ret (Sent (mkResponse 201 "Comment created successfully"
                                    (CommentData comment)))))))))
             end))
      end
  end.

Definition deleteComment_awaits (user : option User) (id : nat) : Task :=
  match user with
  | None => Sent (reply 401 "Authentication required")
  | Some u =>
      Await (stretch "Delete comment error:"
        (let* found := comment_findUnique F id in
         match found with
         | None => ret (Sent (reply 404 "Comment not found"))
         | Some existingComment =>
             if negb (String.eqb (comment_authorId existingComment) (user_id u))
             then ret (Sent (reply 403 "Insufficient permissions"))
             else
               let postId := comment_postId existingComment in
               ret (Await (stretch "Delete comment error:"
                 (let* _ := comment_delete F id in
                  ret (Await (stretch "Delete comment error:"
                    (let* _ :=
                       post_update F postId (fun cur =>
                         set_post_commentCount cur (post_commentCount cur - 1)) in
                     ret (Sent (reply 200 "Comment deleted successfully"))))))))
         end))
  end.

Definition likeComment_awaits (user : option User) (id : nat) : Task :=
  match user with
  | None => Sent (reply 401 "Authentication required")
  | Some u =>
      Await (stretch "Like comment error:"
        (let* found := comment_findUnique F id in
         match found with
         | None => ret (Sent (reply 404 "Comment not found"))
         | Some comment =>
             let hasLiked := includes (comment_likedBy comment) (user_id u) in
             ret (Await (stretch "Like comment error:"
               (let* updatedComment :=
                  comment_update F id (fun cur =>
                    set_comment_likes cur
                      (if hasLiked then comment_likes cur - 1 else comment_likes cur + 1)
                      (if hasLiked then without (comment_likedBy comment) (user_id u)
                       else comment_likedBy cur ++ [user_id u])) in
                ret (Sent (mkResponse 200
                             (if hasLiked then "Comment unliked" else "Comment liked")
                             (CommentData updatedComment))))))
         end))
  end.

End Awaits.

(** The handler of a request, cut at its [await]s. *)
Definition awaits (F : Faults) (r : Request) : Task :=
  match r with
  | CreatePost user c file now => createPost_awaits F user c file now
  | LikePost user id => likePost_awaits F user id
  | CreateComment user postId c now => createComment_awaits F user postId c now
  | LikeComment user id => likeComment_awaits F user id
  | DeleteComment user id => deleteComment_awaits F user id
  end.

(** A request makes up to [n] store calls in a row, no other request in
    between. *)
Fixpoint advance (n : nat) (t : Task) (db : Db) : Db * Task :=
  match n, t with
  | S n', Await next => let (db', t') := next db in advance n' t' db'
  | _, _ => (db, t)
  end.

(** The database together with the requests received so far: a request
    arrives at any time, and any request in flight may be the one whose
    store call runs next. *)
Inductive running : Db -> list Task -> Prop :=
| running_initial db : initial db -> running db []
| running_arrival F r db ts : running db ts -> running db (awaits F r :: ts)
| running_call db ts next ts' :
    running db (ts ++ Await next :: ts') ->
    running (fst (next db)) (ts ++ snd (next db) :: ts').

(** The databases the engagement requests lead to. *)
Definition reachable (db : Db) : Prop := exists ts, running db ts.

End Express.

(** ** The Convex functions *)

Module Convex.

Record Message := mkMessage {
  msg_id : nat;
  msg_senderId : string;
  msg_content : string;
  msg_targetRole : option string;
  msg_targetBranch : option string;
  msg_recipientIds : list string;
  msg_isRead : bool;
  msg_timestamp : Z
}.

Record Post := mkPost {
  post_authorId : string;
  post_content : string;
  post_mediaUrl : option string;
  post_mediaType : option string;
  post_likes : Z;
  post_likedBy : list string;
  post_commentCount : Z;
  post_timestamp : Z
}.

Record Comment := mkComment {
  comment_postId : nat;
  comment_authorId : string;
  comment_content : string;
  comment_likes : Z;
  comment_likedBy : list string;
  comment_timestamp : Z
}.

Record Notification := mkNotification {
  notif_userId : string;
  notif_type : string;
  notif_referenceId : string;
  notif_content : string;
  notif_isRead : bool;
  notif_timestamp : Z
}.

(** The tables of convex/schema.ts; [messages] is kept in insertion order,
    the order in which [collect()] yields the documents. *)
Record Store := mkStore {
  messages : list Message;
  posts : gmap nat Post;
  comments : gmap nat Comment;
  notifications : gmap nat Notification;
  next_id : nat
}.

Definition empty_store : Store := mkStore [] ∅ ∅ ∅ 0.

Definition Ctx (A : Type) : Type := Eff Store A.

(** [mutation({ args, handler })]: the platform runs the handler as one
    transaction; a handler that throws leaves the store as it found it. *)
Definition mutation {A} (handler : Ctx A) : Ctx A :=
  fun s =>
    match handler s with
    | (s', Returned a) => (s', Returned a)
    | (_, Thrown e) => (s, Thrown e)
    end.

(** [ctx.db.get], [insert], [patch] and [delete] on each table. *)
Definition get_post (id : nat) : Ctx (option Post) :=
  fun s => (s, Returned (posts s !! id)).

Definition get_comment (id : nat) : Ctx (option Comment) :=
  fun s => (s, Returned (comments s !! id)).

Definition insert_message (m : nat -> Message) : Ctx nat :=
  fun s =>
    (mkStore (messages s ++ [m (next_id s)]) (posts s) (comments s)
       (notifications s) (S (next_id s)),
     Returned (next_id s)).

Definition insert_post (p : Post) : Ctx nat :=
  fun s =>
    (mkStore (messages s) (<[next_id s := p]> (posts s)) (comments s)
       (notifications s) (S (next_id s)),
     Returned (next_id s)).

Definition insert_comment (c : Comment) : Ctx nat :=
  fun s =>
    (mkStore (messages s) (posts s) (<[next_id s := c]> (comments s))
       (notifications s) (S (next_id s)),
     Returned (next_id s)).

Definition insert_notification (n : Notification) : Ctx nat :=
  fun s =>
    (mkStore (messages s) (posts s) (comments s)
       (<[next_id s := n]> (notifications s)) (S (next_id s)),
     Returned (next_id s)).

Definition patch_post (id : nat) (f : Post -> Post) : Ctx unit :=
  fun s =>
    match posts s !! id with
    | Some cur =>
        (mkStore (messages s) (<[id := f cur]> (posts s)) (comments s)
           (notifications s) (next_id s),
         Returned tt)
    | None => (s, Thrown "Update on nonexistent document")
    end.

Definition patch_comment (id : nat) (f : Comment -> Comment) : Ctx unit :=
  fun s =>
    match comments s !! id with
    | Some cur =>
        (mkStore (messages s) (posts s) (<[id := f cur]> (comments s))
           (notifications s) (next_id s),
         Returned tt)
    | None => (s, Thrown "Update on nonexistent document")
    end.

Definition delete_comment (id : nat) : Ctx unit :=
  fun s =>
    match comments s !! id with
    | Some _ =>
        (mkStore (messages s) (posts s) (delete id (comments s))
           (notifications s) (next_id s),
         Returned tt)
    | None => (s, Thrown "Delete on nonexistent document")
    end.

Definition set_post_likes (cur : Post) (likes : Z) (likedBy : list string) : Post :=
  mkPost (post_authorId cur) (post_content cur) (post_mediaUrl cur)
    (post_mediaType cur) likes likedBy (post_commentCount cur) (post_timestamp cur).

Definition set_post_commentCount (cur : Post) (n : Z) : Post :=
  mkPost (post_authorId cur) (post_content cur) (post_mediaUrl cur)
    (post_mediaType cur) (post_likes cur) (post_likedBy cur) n (post_timestamp cur).

Definition set_comment_likes (cur : Comment) (likes : Z) (likedBy : list string)
    : Comment :=
  mkComment (comment_postId cur) (comment_authorId cur) (comment_content cur)
    likes likedBy (comment_timestamp cur).

(** *** Mutations *)

Definition sendMessage (senderId content : string)
    (targetRole targetBranch : option string) (recipientIds : list string)
    (now : Z) : Ctx nat :=
  mutation
    (insert_message (fun id =>
       mkMessage id senderId content targetRole targetBranch recipientIds false now)).

Definition createPost (authorId content : string)
    (mediaUrl mediaType : option string) (now : Z) : Ctx nat :=
  mutation (insert_post (mkPost authorId content mediaUrl mediaType 0 [] 0 now)).

Definition likePost (postId : nat) (userId : string) : Ctx (option Post) :=
  mutation
    (let* found := get_post postId in
     match found with
     | None => throw "Post not found"
     | Some post =>
         let hasLiked := includes (post_likedBy post) userId in
         let* _ :=
           if hasLiked
           then patch_post postId (fun cur =>
                  set_post_likes cur (post_likes post - 1)
                    (without (post_likedBy post) userId))
           else patch_post postId (fun cur =>
                  set_post_likes cur (post_likes post + 1)
                    (post_likedBy post ++ [userId])) in
         get_post postId
     end).

Definition createComment (postId : nat) (authorId content : string) (now : Z)
    : Ctx nat :=
  mutation
    (let* comment := insert_comment (mkComment postId authorId content 0 [] now) in
     let* found := get_post postId in
     let* _ :=
       match found with
       | Some post =>
           patch_post postId (fun cur =>
             set_post_commentCount cur (post_commentCount post + 1))
       | None => ret tt
       end in
     ret comment).

Definition likeComment (commentId : nat) (userId : string) : Ctx (option Comment) :=
  mutation
    (let* found := get_comment commentId in
     match found with
     | None => throw "Comment not found"
     | Some comment =>
         let hasLiked := includes (comment_likedBy comment) userId in
         let* _ :=
           if hasLiked
           then patch_comment commentId (fun cur =>
                  set_comment_likes cur (comment_likes comment - 1)
                    (without (comment_likedBy comment) userId))
           else patch_comment commentId (fun cur =>
                  set_comment_likes cur (comment_likes comment + 1)
                    (comment_likedBy comment ++ [userId])) in
         get_comment commentId
     end).

Definition deleteComment (commentId : nat) (userId : string) : Ctx bool :=
  mutation
    (let* found := get_comment commentId in
     match found with
     | None => throw "Comment not found"
     | Some comment =>
         if negb (String.eqb (comment_authorId comment) userId)
         then throw "Insufficient permissions"
         else
           let postId := comment_postId comment in
           let* _ := delete_comment commentId in
           let* found_post := get_post postId in
           let* _ :=
             match found_post with
             | Some post =>
                 patch_post postId (fun cur =>
                   set_post_commentCount cur (Z.max 0 (post_commentCount post - 1)))
             | None => ret tt
             end in
           ret true
     end).

Definition createNotification (userId type referenceId content : string) (now : Z)
    : Ctx nat :=
  mutation
    (insert_notification (mkNotification userId type referenceId content false now)).

(** *** Queries *)

(** [q.eq(l, r)] compares two values, and a string given to it is a value:
    a field of the document is read only through [q.field(name)], which
    [getConversation] does not call.  Its filter compares the strings
    ['senderId'] and ['recipientIds'] with the arguments, whatever the
    document. *)
Definition q_eq (l r : string) : Message -> bool := fun _ => String.eqb l r.

Definition q_and (p q : Message -> bool) : Message -> bool := fun m => p m && q m.

Definition getConversation (user1Id user2Id : string) (s : Store) : list Message :=
  let messages1 :=
    List.filter (q_and (q_eq "senderId" user1Id) (q_eq "recipientIds" user2Id))
      (messages s) in
  let messages2 :=
    List.filter (q_and (q_eq "senderId" user2Id) (q_eq "recipientIds" user1Id))
      (messages s) in
  sort_by msg_timestamp (messages1 ++ messages2).

(** *** The engagement mutations as one transition system *)
Inductive Mutation :=
| CreatePost (authorId content : string) (mediaUrl mediaType : option string) (now : Z)
| LikePost (postId : nat) (userId : string)
| CreateComment (postId : nat) (authorId content : string) (now : Z)
| LikeComment (commentId : nat) (userId : string)
| DeleteComment (commentId : nat) (userId : string).

Definition run (m : Mutation) (s : Store) : Store :=
  match m with
  | CreatePost a c mu mt now => fst (createPost a c mu mt now s)
  | LikePost p u => fst (likePost p u s)
  | CreateComment p a c now => fst (createComment p a c now s)
  | LikeComment c u => fst (likeComment c u s)
  | DeleteComment c u => fst (deleteComment c u s)
  end.

Definition initial (s : Store) : Prop := posts s = ∅ /\ comments s = ∅.

Inductive reachable : Store -> Prop :=
| reachable_initial s : initial s -> reachable s
| reachable_step m s : reachable s -> reachable (run m s).

End Convex.

(** ** The rest of the Express server

    The middleware and the controllers that read, edit and delete: they run
    over the same database and the same Prisma client as [Module Express].
    [F] gives the failures of the call kinds listed in [Express.Call], [G]
    those of the kinds listed here. *)

Module Handlers.
Import Express.

Inductive Call :=
| UserFindUnique | UserUpdate
| MessageFindUnique | MessageDelete
| NotificationFindMany | NotificationUpdateMany
| PostFindMany | PostCount
| CommentFindMany | CommentCount.

Definition Faults := Call -> option string.

Definition no_faults : Faults := fun _ => None.

(** What a middleware does with a request: it answers, or it calls
    [next()] after attaching a value to the request. *)
Inductive Next (A : Type) : Type :=
| Responded (r : Response)
| Continue (a : A).
Arguments Responded {A} r.
Arguments Continue {A} a.

(** The answer of a controller whose payload is not one of
    [Express.Payload]. *)
Record Answer (A : Type) : Type := mkAnswer {
  code : nat;
  note : string;
  body : option A
}.
Arguments mkAnswer {A} code note body.
Arguments code {A} a.
Arguments note {A} a.
Arguments body {A} a.

Definition refuse {A} (st : nat) (msg : string) : Answer A := mkAnswer st msg None.

Definition failed {A} (label e : string) : Prisma (Answer A) :=
  let* _ := log_error label e in
  ret (refuse 500 "Internal server error").

(** [s.split(sep)] for a one-character separator. *)
Fixpoint split_on (sep : Ascii.ascii) (s : string) : list string :=
  match s with
  | EmptyString => [EmptyString]
  | String c rest =>
      if Ascii.eqb c sep then EmptyString :: split_on sep rest
      else match split_on sep rest with
           | [] => [String c EmptyString]
           | w :: ws => String c w :: ws
           end
  end.

(** [parseInt(q) || d], the query parameter being given by the number
    [parseInt] returns for it: an integer, or [None] for NaN. *)
Definition number_or (n : option Z) (d : Z) : Z :=
  match n with
  | Some k => if Z.eqb k 0 then d else k
  | None => d
  end.

(** [Math.ceil(a / b)] for integers [a] and [b <> 0]. *)
Definition ceil_div (a b : Z) : Z := - ((- a) / b).

Record Pagination := mkPagination {
  pg_page : Z;
  pg_limit : Z;
  pg_total : Z;
  pg_pages : Z
}.

(** [skip] and [take] reach the query engine as integers.  Within the
    range of a 32-bit integer the engine skips and takes that many rows:
    the page is cut here. *)
Definition int32 (z : Z) : bool := Z.leb (- 2 ^ 31) z && Z.leb z (2 ^ 31 - 1).

Definition invalid_skip : string :=
  "Invalid value for skip argument: Value can only be positive".

(** What the query engine answers to a [skip] or a [take] outside the range
    of a 32-bit integer.  The engine is not part of this repository: it
    refuses some of these values and misreads others. *)
Definition Engine : Type := forall A : Type, Z -> Z -> list A -> Outcome (list A).

(** An engine that refuses every value outside the range. *)
Definition strict_engine : Engine :=
  fun _ _ _ _ => Thrown "Unable to fit integer value into an INT4 (32-bit signed integer).".

(** [findMany({ skip, take })] on rows already in order: a negative [skip]
    is rejected by the client, a negative [take] counts from the end. *)
Definition window {A} (beyond : Engine) (skip take : Z) (rows : list A)
    : Outcome (list A) :=
  if Z.ltb skip 0 then Thrown invalid_skip
  else if int32 skip && int32 take then
    if Z.leb 0 take
    then Returned (firstn (Z.to_nat take) (skipn (Z.to_nat skip) rows))
    else Returned (rev (firstn (Z.to_nat (- take)) (skipn (Z.to_nat skip) (rev rows))))
  else beyond A skip take rows.

Definition set_isRead (m : Message) (b : bool) : Message :=
  mkMessage (msg_id m) (msg_senderId m) (msg_content m) (msg_messageType m)
    (msg_targetRole m) (msg_targetBranch m) (msg_recipients m) b (msg_createdAt m).

Definition set_post_content (p : Post) (c : string) : Post :=
  mkPost (post_authorId p) c (post_mediaUrl p) (post_mediaType p) (post_likes p)
    (post_likedBy p) (post_commentCount p) (post_createdAt p).

Definition set_comment_content (c : Comment) (x : string) : Comment :=
  mkComment (comment_postId c) (comment_authorId c) x (comment_likes c)
    (comment_likedBy c) (comment_createdAt c).

Definition with_users (db : Db) (v : list User) : Db :=
  mkDb v (messages db) (posts db) (comments db) (notifications db) (next_id db)
    (console db).

Definition find_user (db : Db) (id : string) : option User :=
  List.find (fun u => String.eqb (user_id u) id) (users db).

(** The [where] clause of [getConversations]. *)
Definition involves (userId : string) (m : Message) : bool :=
  String.eqb (msg_senderId m) userId || includes (msg_recipients m) userId.

(** *** middleware/auth.middleware.ts *)

Definition checkRole (allowedRoles : list string) (user : option User) : Next unit :=
  match user with
  | None => Responded (reply 401 "Authentication required")
  | Some u =>
      if negb (includes allowedRoles (user_role u))
      then Responded (reply 403 "Insufficient permissions")
      else Continue tt
  end.

(** [branch] is [req.params.branch]. *)
Definition checkBranchAccess (user : option User) (branch : option string) : Next unit :=
  match user with
  | None => Responded (reply 401 "Authentication required")
  | Some u =>
      if String.eqb (user_role u) "OFFICIAL" then Continue tt
      else if truthy branch && negb (strict_eq (user_branch u) branch)
           then Responded (reply 403 "Access denied to this branch")
           else Continue tt
  end.

Section WithStore.
Variable F : Express.Faults.
Variable G : Faults.
Variable beyond : Engine.

Definition call {A} (c : Call) (op : Prisma A) : Prisma A :=
  fun db =>
    match G c with
    | Some e => (db, Thrown e)
    | None => op db
    end.

Definition user_findUnique (id : string) : Prisma (option User) :=
  call UserFindUnique (fun db => (db, Returned (find_user db id))).

(** [user.update({ where: { id }, data })].  The table has no order of its
    own: [findMany] without [orderBy] lists the rows as the store holds
    them, and the store writes the new version of an updated row after the
    other rows. *)
Definition user_update (id : string) (f : User -> User) : Prisma User :=
  call UserUpdate (fun db =>
    match find_user db id with
    | Some cur =>
        (with_users db
           (List.filter (fun x => negb (String.eqb (user_id x) id)) (users db)
            ++ [f cur]),
         Returned (f cur))
    | None => (db, Thrown record_not_found)
    end).

Definition message_findUnique (id : nat) : Prisma (option Message) :=
  call MessageFindUnique (fun db => (db, Returned (find_message db id))).

(** [findMany({ where, orderBy: { createdAt: 'desc' } })]; as for the
    ascending order, rows with equal [createdAt] come back in the order the
    table holds them. *)
Definition message_findMany_desc (w : Message -> bool) : Prisma (list Message) :=
  Express.call F MessageFindMany (fun db =>
    (db, Returned (sort_by (fun m => - msg_createdAt m) (List.filter w (messages db))))).

Definition message_update (id : nat) (f : Message -> Message) : Prisma Message :=
  Express.call F MessageUpdate (fun db =>
    match find_message db id with
    | Some cur =>
        (with_messages db
           (List.map (fun x => if Nat.eqb (msg_id x) id then f x else x) (messages db)),
         Returned (f cur))
    | None => (db, Thrown record_not_found)
    end).

Definition message_delete (id : nat) : Prisma Message :=
  call MessageDelete (fun db =>
    match find_message db id with
    | Some cur =>
        (with_messages db
           (List.filter (fun x => negb (Nat.eqb (msg_id x) id)) (messages db)),
         Returned cur)
    | None => (db, Thrown record_not_found)
    end).

Definition notification_findMany_desc (userId : string)
    : Prisma (list (nat * Notification)) :=
  call NotificationFindMany (fun db =>
    (db, Returned
       (sort_by (fun r => - notif_createdAt (snd r))
          (List.filter (fun r => String.eqb (notif_userId (snd r)) userId)
             (map_to_list (notifications db)))))).

(** [updateMany({ where: { userId, isRead: false }, data: { isRead: true } })]. *)
Definition notification_updateMany_read (userId : string) : Prisma unit :=
  call NotificationUpdateMany (fun db =>
    (with_notifications db
       ((fun n => if String.eqb (notif_userId n) userId && negb (notif_isRead n)
                  then set_notif_isRead n true else n) <$> notifications db),
     Returned tt)).

Definition post_findMany_desc (skip take : Z) : Prisma (list (nat * Post)) :=
  call PostFindMany (fun db =>
    (db, window beyond skip take
           (sort_by (fun r => - post_createdAt (snd r)) (map_to_list (posts db))))).

Definition post_count : Prisma Z :=
  call PostCount (fun db => (db, Returned (Z.of_nat (size (posts db))))).

Definition comments_of (postId : nat) (db : Db) : list (nat * Comment) :=
  sort_by (fun r => comment_createdAt (snd r))
    (List.filter (fun r => Nat.eqb (comment_postId (snd r)) postId)
       (map_to_list (comments db))).

Definition comment_findMany_asc (postId : nat) (skip take : Z)
    : Prisma (list (nat * Comment)) :=
  call CommentFindMany (fun db =>
    (db, window beyond skip take (comments_of postId db))).

Definition comment_count (postId : nat) : Prisma Z :=
  call CommentCount (fun db =>
    (db, Returned (Z.of_nat (length (comments_of postId db))))).

(** [post.findUnique({ where: { id }, include: { comments: { orderBy:
    { createdAt: 'asc' } } } })]. *)
Definition post_findUnique_with_comments (id : nat)
    : Prisma (option (Post * list (nat * Comment))) :=
  Express.call F PostFindUnique (fun db =>
    (db, Returned (match posts db !! id with
                   | Some p => Some (p, comments_of id db)
                   | None => None
                   end))).

(** [verifyToken] (utils/auth.utils.ts) wraps [jwt.verify]: it is given here
    by the [id] claim of the tokens it accepts, [None] for the others. *)
Variable verifyToken : string -> option string.

(** [authorization] is [req.headers.authorization]; on success the user is
    attached as [req.user]. *)
Definition authenticate (authorization : option string) : Prisma (Next User) :=
  catch
    (match authorization with
     | Some authHeader =>
         if negb (truthy (Some authHeader)) || negb (String.prefix "Bearer " authHeader)
         then ret (Responded (reply 401 "Authentication required"))
         else
           match nth_error (split_on Ascii.Space authHeader) 1 with
           | Some token =>
               match verifyToken token with
               | Some id =>
                   let* found := user_findUnique id in
                   match found with
                   | Some user => ret (Continue user)
                   | None => ret (Responded (reply 401 "User not found"))
                   end
               | None => ret (Responded (reply 401 "Invalid token"))
               end
           | None => ret (Responded (reply 401 "Invalid token"))
           end
     | None => ret (Responded (reply 401 "Authentication required"))
     end)
    (fun e =>
       let* _ := log_error "Authentication error:" e in
       ret (Responded (reply 500 "Internal server error"))).

(** *** controllers/user.controller.ts *)

(** [role] and [branch] are [req.query.role] and [req.query.branch]. *)
Definition getAllUsers (role branch : option string) : Prisma (Answer (list User)) :=
  catch
    (let where_ :=
       mkUserWhere (if truthy role then role else None)
         (if truthy branch then Some branch else None) in
     let* users := Express.user_findMany F where_ in
     ret (mkAnswer 200 "" (Some users)))
    (failed "Get all users error:").

Definition getUserById (id : string) : Prisma (Answer User) :=
  catch
    (let* found := user_findUnique id in
     match found with
     | None => ret (refuse 404 "User not found")
     | Some user => ret (mkAnswer 200 "" (Some user))
     end)
    (failed "Get user by ID error:").

(** Of [req.body] the field [branch] is kept, absent ([None]), [null] or a
    string; [name], [position] and [profileImage] go to columns outside
    [User]. *)
Definition updateUser (user : option User) (id : string)
    (branch : option (option string)) : Prisma (Answer User) :=
  catch
    (let* found := user_findUnique id in
     match found with
     | None => ret (refuse 404 "User not found")
     | Some existingUser =>
         if negb (strict_eq (user_id <$> user) (Some id))
            && negb (strict_eq (user_role <$> user) (Some "OFFICIAL"))
         then ret (refuse 403 "Insufficient permissions")
         else
           let* updated :=
             user_update id (fun cur =>
               mkUser (user_id cur) (user_role cur)
                 (if String.eqb (user_role existingUser) "OFFICIAL"
                  then user_branch existingUser
                  else match branch with
                       | Some b => b
                       | None => user_branch cur
                       end)) in
           ret (mkAnswer 200 "User updated successfully" (Some updated))
     end)
    (failed "Update user error:").

Definition getUsersByBranch (branch : string) : Prisma (Answer (list User)) :=
  catch
    (let* users := Express.user_findMany F (mkUserWhere None (Some (Some branch))) in
     ret (mkAnswer 200 "" (Some users)))
    (failed "Get users by branch error:").

(** *** controllers/message.controller.ts *)

Definition getConversations (user : option User) : Prisma Response :=
  catch
    (match user with
     | None => ret (reply 401 "Authentication required")
     | Some u =>
         let* messages := message_findMany_desc (involves (user_id u)) in
         ret (mkResponse 200 "" (MessagesData messages))
     end)
    (internal_error "Get conversations error:").

Definition markMessageAsRead (user : option User) (id : nat) : Prisma Response :=
  catch
    (match user with
     | None => ret (reply 401 "Authentication required")
     | Some u =>
         let* found := message_findUnique id in
         match found with
         | None => ret (reply 404 "Message not found")
         | Some message =>
             let isRecipient := includes (msg_recipients message) (user_id u) in
             if negb isRecipient
             then ret (reply 403 "Insufficient permissions")
             else
               let* updatedMessage := message_update id (fun cur => set_isRead cur true) in
               ret (mkResponse 200 "Message marked as read" (MessageData updatedMessage))
         end
     end)
    (internal_error "Mark message as read error:").

Definition deleteMessage (user : option User) (id : nat) : Prisma Response :=
  catch
    (match user with
     | None => ret (reply 401 "Authentication required")
     | Some u =>
         let* found := message_findUnique id in
         match found with
         | None => ret (reply 404 "Message not found")
         | Some message =>
             if negb (String.eqb (msg_senderId message) (user_id u))
             then ret (reply 403 "Insufficient permissions")
             else
               let* _ := message_delete id in
               ret (reply 200 "Message deleted successfully")
         end
     end)
    (internal_error "Delete message error:").

(** *** controllers/notification.controller.ts *)

Definition getNotifications (user : option User)
    : Prisma (Answer (list (nat * Notification))) :=
  catch
    (match user with
     | None => ret (refuse 401 "Authentication required")
     | Some u =>
         let* notifications := notification_findMany_desc (user_id u) in
         ret (mkAnswer 200 "" (Some notifications))
     end)
    (failed "Get notifications error:").

Definition markAllNotificationsAsRead (user : option User) : Prisma Response :=
  catch
    (match user with
     | None => ret (reply 401 "Authentication required")
     | Some u =>
         let* _ := notification_updateMany_read (user_id u) in
         ret (reply 200 "All notifications marked as read")
     end)
    (internal_error "Mark all notifications as read error:").

(** *** controllers/post.controller.ts *)

(** [page] and [limit] are [parseInt(req.query.page)] and
    [parseInt(req.query.limit)]. *)
Definition getAllPosts (page limit : option Z)
    : Prisma (Answer (list (nat * Post) * Pagination)) :=
  catch
    (let page := number_or page 1 in
     let limit := number_or limit 10 in
     let skip := (page - 1) * limit in
     let* posts := post_findMany_desc skip limit in
     let* total := post_count in
     ret (mkAnswer 200 ""
            (Some (posts, mkPagination page limit total (ceil_div total limit)))))
    (failed "Get all posts error:").


Definition updatePost (user : option User) (id : nat) (body_content : option string)
    : Prisma Response :=
  catch
    (match user with
     | None => ret (reply 401 "Authentication required")
     | Some u =>
         match contentSchema body_content with
         | None => ret (reply 400 "Validation error")
         | Some c =>
             let* found := Express.post_findUnique F id in
             match found with
             | None => ret (reply 404 "Post not found")
             | Some existingPost =>
                 if negb (String.eqb (post_authorId existingPost) (user_id u))
                 then ret (reply 403 "Insufficient permissions")
                 else
                   let* post :=
                     Express.post_update F id (fun cur => set_post_content cur c) in
                   ret (mkResponse 200 "Post updated successfully" (PostData post))
             end
         end
     end)
    (internal_error "Update post error:").


Definition updateComment (user : option User) (id : nat) (body_content : option string)
    : Prisma Response :=
  catch
    (match user with
     | None => ret (reply 401 "Authentication required")
     | Some u =>
         match contentSchema body_content with
         | None => ret (reply 400 "Validation error")
         | Some c =>
             let* found := Express.comment_findUnique F id in
             match found with
             | None => ret (reply 404 "Comment not found")
             | Some existingComment =>
                 if negb (String.eqb (comment_authorId existingComment) (user_id u))
                 then ret (reply 403 "Insufficient permissions")
                 else
                   let* comment :=
                     Express.comment_update F id (fun cur => set_comment_content cur c) in
                   ret (mkResponse 200 "Comment updated successfully"
                          (CommentData comment))
             end
         end
     end)
    (internal_error "Update comment error:").

End WithStore.

End Handlers.

(** ** The rest of the Convex functions *)

Module ConvexRest.
Import Convex.

(** [l.slice(start, end)] for integer arguments: a negative index counts
    from the end, and both are clamped to the array. *)
Definition slice {A} (l : list A) (start end_ : Z) : list A :=
  let len := Z.of_nat (length l) in
  let from := if Z.ltb start 0 then Z.max (len + start) 0 else Z.min start len in
  let to := if Z.ltb end_ 0 then Z.max (len + end_) 0 else Z.min end_ len in
  firstn (Z.to_nat (to - from)) (skipn (Z.to_nat from) l).

(** [n || d] for an optional number: absent and 0 give [d]. *)
Definition number_or (n : option Z) (d : Z) : Z :=
  match n with
  | Some k => if Z.eqb k 0 then d else k
  | None => d
  end.

(** [ctx.db.query('posts').order('desc').collect()]: the documents from the
    newest to the oldest, that is by decreasing id. *)
Definition posts_desc (s : Store) : list (nat * Post) :=
  sort_by (fun r => - Z.of_nat (fst r)) (map_to_list (posts s)).

Definition getPosts (limit offset : option Z) (s : Store) : list (nat * Post) :=
  let limit := number_or limit 20 in
  let offset := number_or offset 0 in
  slice (posts_desc s) offset (offset + limit).

Definition patch_message (id : nat) (f : Message -> Message) : Ctx unit :=
  fun s =>
    if existsb (fun m => Nat.eqb (msg_id m) id) (messages s)
    then (mkStore (List.map (fun m => if Nat.eqb (msg_id m) id then f m else m)
                     (messages s))
            (posts s) (comments s) (notifications s) (next_id s),
          Returned tt)
    else (s, Thrown "Update on nonexistent document").

Definition set_isRead (m : Message) (b : bool) : Message :=
  mkMessage (msg_id m) (msg_senderId m) (msg_content m) (msg_targetRole m)
    (msg_targetBranch m) (msg_recipientIds m) b (msg_timestamp m).

Definition markMessageRead (messageId : nat) : Ctx bool :=
  mutation
    (let* _ := patch_message messageId (fun m => set_isRead m true) in
     ret true).

End ConvexRest.

(** ** Vocabulary of the properties *)

(** Orders and selections by a key, used to state what a sort returns. *)
Definition key_le {A : Type} (key : A -> Z) (x y : A) : Prop := key x <= key y.

Definition key_lt {A : Type} (key : A -> Z) (x y : A) : Prop := key x < key y.

Definition has_key {A : Type} (key : A -> Z) (t : Z) (x : A) : bool :=
  Z.eqb (key x) t.

(** The counter agrees with the array, and the array lists each user once:
    its length is the number of users who like the entity. *)
Definition likes_ok (likes : Z) (likedBy : list string) : Prop :=
  likes = Z.of_nat (length likedBy) /\ List.NoDup likedBy.

Definition express_likes_ok (db : Express.Db) : Prop :=
  map_Forall (fun _ p => likes_ok (Express.post_likes p) (Express.post_likedBy p))
    (Express.posts db) /\
  map_Forall (fun _ c => likes_ok (Express.comment_likes c) (Express.comment_likedBy c))
    (Express.comments db).

Definition convex_likes_ok (s : Convex.Store) : Prop :=
  map_Forall (fun _ p => likes_ok (Convex.post_likes p) (Convex.post_likedBy p))
    (Convex.posts s) /\
  map_Forall (fun _ c => likes_ok (Convex.comment_likes c) (Convex.comment_likedBy c))
    (Convex.comments s).

(** The toggle as the spec words it, on the pair [(likes, likedBy)] of a
    Post or a Comment: the result tells whether the user now likes the
    entity. *)
Definition toggleLike (e : Z * list string) (userId : string)
    : bool * (Z * list string) :=
  if includes (snd e) userId
  then (false, (fst e - 1, without (snd e) userId))
  else (true, (fst e + 1, snd e ++ [userId])).


(** The store serves every call except [post.update], which fails. *)
Definition post_update_fails : Express.Faults :=
  fun c =>
    match c with
    | Express.PostUpdate => Some "Can't reach database server"
    | _ => None
    end.

Definition convex_counts_ok (s : Convex.Store) : Prop :=
  map_Forall (fun _ p => 0 <= Convex.post_commentCount p) (Convex.posts s).

(** The messages exchanged by [a] and [b], either way: sent by one with the
    other among the recipients. *)
Definition between (a b : string) (m : Convex.Message) : bool :=
  (String.eqb (Convex.msg_senderId m) a && includes (Convex.msg_recipientIds m) b)
  || (String.eqb (Convex.msg_senderId m) b && includes (Convex.msg_recipientIds m) a).

(** The thread as the spec words it: the messages of both directions merged
    by timestamp, ties broken by insertion order. *)
Definition assembleThread (a b : string) (s : Convex.Store) : list Convex.Message :=
  sort_by Convex.msg_timestamp (List.filter (between a b) (Convex.messages s)).

(** The [where] clause of [getConversationWithUser]. *)
Definition express_between (a b : string) (m : Express.Message) : bool :=
  (String.eqb (Express.msg_senderId m) a && includes (Express.msg_recipients m) b)
  || (String.eqb (Express.msg_senderId m) b && includes (Express.msg_recipients m) a).

(** Three messages inserted out of order: the third, the first, the second. *)
Definition shuffled_store : Convex.Store :=
  fst (Convex.sendMessage "B" "second" None None ["A"] 2
    (fst (Convex.sendMessage "A" "first" None None ["B"] 1
      (fst (Convex.sendMessage "A" "third" None None ["B"] 3 Convex.empty_store))))).

(** The same three messages in the Express database. *)
Definition shuffled_db : Express.Db :=
  Express.mkDb
    [Express.mkUser "A" "STUDENT" None; Express.mkUser "B" "STUDENT" None]
    [Express.mkMessage 0 "A" "third" "INDIVIDUAL" None None ["B"] false 3;
     Express.mkMessage 1 "A" "first" "INDIVIDUAL" None None ["B"] false 1;
     Express.mkMessage 2 "B" "second" "INDIVIDUAL" None None ["A"] false 2]
    ∅ ∅ ∅ 3 [].

(** The response refuses the request before any write: 401, 400, 403 or
    404. *)
Definition refused (r : Express.Response) : bool :=
  existsb (Nat.eqb (Express.status r)) [401; 400; 403; 404]%nat.

(** Every stored message has an id the counter has already passed. *)
Definition well_numbered (db : Express.Db) : Prop :=
  Forall (fun m => (Express.msg_id m < Express.next_id db)%nat) (Express.messages db).




(** * Properties *)

Section Permissions.
Import Express.

Lemma strict_eq_spec (a b : option string) : strict_eq a b = true <-> a = b.
Proof.
  destruct a as [x|], b as [y|]; simpl; try (split; congruence).
  rewrite String.eqb_eq. split; congruence.
Qed.

(** C1. [validateMessagePermissions] lets every OFFICIAL through, lets a
    TEACHER through exactly for target role STUDENT in the teacher's own
    branch, lets a STUDENT through exactly for target role STUDENT whatever
    the branch, and refuses every other sender role.  Being a function of
    its three arguments only, it reads and writes no state. *)
Theorem canSend_rules (sender : User) (targetRole : string)
    (targetBranch : option string) :
  (user_role sender = "OFFICIAL" ->
     validateMessagePermissions sender targetRole targetBranch = true) /\
  (user_role sender = "TEACHER" ->
     (validateMessagePermissions sender targetRole targetBranch = true <->
      targetRole = "STUDENT" /\ targetBranch = user_branch sender)) /\
  (user_role sender = "STUDENT" ->
     (validateMessagePermissions sender targetRole targetBranch = true <->
      targetRole = "STUDENT")) /\
  (user_role sender <> "OFFICIAL" -> user_role sender <> "TEACHER" ->
   user_role sender <> "STUDENT" ->
     validateMessagePermissions sender targetRole targetBranch = false).
Proof.
  unfold validateMessagePermissions.
  split; [| split; [| split]].
  - intros ->. reflexivity.
  - intros ->. simpl.
    rewrite andb_true_iff, String.eqb_eq, strict_eq_spec. tauto.
  - intros ->. simpl. apply String.eqb_eq.
  - intros H1 H2 H3.
    apply String.eqb_neq in H1, H2, H3. now rewrite H1, H2, H3.
Qed.

Lemma canSend_rules_witness :
  let teacher := mkUser "t1" "TEACHER" (Some "CSE") in
  validateMessagePermissions teacher "STUDENT" (Some "CSE") = true /\
  validateMessagePermissions teacher "STUDENT" (Some "IT") = false /\
  validateMessagePermissions (mkUser "o1" "OFFICIAL" None) "TEACHER" (Some "IT") = true /\
  validateMessagePermissions (mkUser "s1" "STUDENT" (Some "IT")) "TEACHER" None = false /\
  validateMessagePermissions (mkUser "g1" "GUEST" None) "STUDENT" None = false.
Proof.
  intros teacher.
  pose proof (canSend_rules teacher "STUDENT" (Some "CSE")) as (_ & Ht & _ & _).
  pose proof (canSend_rules (mkUser "o1" "OFFICIAL" None) "TEACHER" (Some "IT"))
    as (Ho & _).
  pose proof (canSend_rules (mkUser "g1" "GUEST" None) "STUDENT" None)
    as (_ & _ & _ & Hg).
  split; [apply Ht; [reflexivity | split; reflexivity] |].
  split; [reflexivity |].
  split; [apply Ho; reflexivity |].
  split; [reflexivity |].
  apply Hg; discriminate.
Defined.

End Permissions.

(** ** Arrays of user ids *)

Section LikedBy.

Lemma includes_In (l : list string) (x : string) : includes l x = true <-> In x l.
Proof.
  induction l as [|y l IH]; simpl.
  - split; [discriminate | tauto].
  - rewrite orb_true_iff, String.eqb_eq, IH. tauto.
Qed.

Lemma includes_false (l : list string) (x : string) :
  includes l x = false <-> ~ In x l.
Proof.
  rewrite <- includes_In. destruct (includes l x); split; congruence.
Qed.

Lemma In_without (l : list string) (x y : string) :
  In y (without l x) <-> In y l /\ y <> x.
Proof.
  induction l as [|z l IH]; simpl; [tauto |].
  destruct (String.eqb_spec z x) as [-> | Hne]; simpl; rewrite IH.
  - split; [tauto |]. intros [[<- | H] Hy]; [congruence | tauto].
  - split; [| tauto]. intros [<- | H]; tauto.
Qed.

Lemma without_notin (l : list string) (x : string) : ~ In x l -> without l x = l.
Proof.
  induction l as [|z l IH]; simpl; [reflexivity |].
  intros H. destruct (String.eqb_spec z x) as [-> | Hne]; [tauto |].
  f_equal. apply IH. tauto.
Qed.

Lemma without_app_last (l : list string) (x : string) :
  ~ In x l -> without (l ++ [x]) x = l.
Proof.
  induction l as [|z l IH]; simpl; intros H.
  - now rewrite String.eqb_refl.
  - destruct (String.eqb_spec z x) as [-> | Hne]; [tauto |].
    f_equal. apply IH. tauto.
Qed.

Lemma NoDup_without (l : list string) (x : string) : List.NoDup l -> List.NoDup (without l x).
Proof.
  induction 1 as [|z l Hz Hl IH]; simpl; [constructor |].
  destruct (String.eqb z x); [assumption |].
  constructor; [| assumption]. rewrite In_without. tauto.
Qed.

Lemma length_without (l : list string) (x : string) :
  List.NoDup l -> In x l -> S (length (without l x)) = length l.
Proof.
  induction 1 as [|z l Hz Hl IH]; simpl; [tauto |].
  intros [-> | Hx].
  - rewrite String.eqb_refl. now rewrite without_notin.
  - destruct (String.eqb_spec z x) as [-> | Hne]; [tauto |].
    simpl. now rewrite IH.
Qed.

Lemma NoDup_snoc (l : list string) (x : string) :
  List.NoDup l -> ~ In x l -> List.NoDup (l ++ [x]).
Proof.
  induction 1 as [|z l Hz Hl IH]; simpl; intros Hx.
  - constructor; [simpl; tauto | constructor].
  - constructor; [| apply IH; tauto].
    rewrite in_app_iff. simpl. intros [H | [H | []]]; [tauto |].
    apply Hx. now left.
Qed.


Lemma likes_ok_initial : likes_ok 0 [].
Proof. split; [reflexivity | constructor]. Qed.

Lemma likes_ok_toggle (likes : Z) (likedBy : list string) (u : string) :
  likes_ok likes likedBy ->
  likes_ok (if includes likedBy u then likes - 1 else likes + 1)
           (if includes likedBy u then without likedBy u else likedBy ++ [u]).
Proof.
  intros [Hn Hd]. destruct (includes likedBy u) eqn:Hu.
  - apply includes_In in Hu. split; [| now apply NoDup_without].
    pose proof (length_without likedBy u Hd Hu). lia.
  - apply includes_false in Hu. split; [| now apply NoDup_snoc].
    rewrite length_app. simpl. lia.
Qed.

End LikedBy.

(** ** Symbolic execution of handlers *)

Ltac run_effects :=
  unfold catch, bind, ret, throw;
  repeat (case_match; simplify_eq/=); simpl.

Ltac run_express :=
  unfold Express.createPost, Express.likePost, Express.createComment,
    Express.likeComment, Express.deleteComment, Express.internal_error,
    Express.log_error, Express.post_create, Express.post_findUnique,
    Express.post_update, Express.comment_create, Express.comment_findUnique,
    Express.comment_update, Express.comment_delete, Express.call;
  run_effects.

Ltac run_convex :=
  unfold Convex.createPost, Convex.likePost, Convex.createComment,
    Convex.likeComment, Convex.deleteComment, Convex.mutation, Convex.get_post,
    Convex.get_comment, Convex.insert_post, Convex.insert_comment,
    Convex.patch_post, Convex.patch_comment, Convex.delete_comment;
  run_effects.

(** Closes a goal [likes_ok _ _] about a row that was just created, just
    toggled, or left as it was. *)
Ltac solve_likes_ok :=
  simpl;
  first
    [ exact likes_ok_initial
    | match goal with
      | Hl : ?m !! _ = Some ?p, Hall : map_Forall _ ?m,
        Hi : includes _ ?u = _ |- likes_ok _ _ =>
          let H := fresh in
          pose proof (likes_ok_toggle _ _ u (Hall _ _ Hl)) as H;
          simpl in H; rewrite Hi in H; exact H
      end
    | match goal with
      | Hl : ?m !! _ = Some ?p, Hall : map_Forall _ ?m |- likes_ok _ _ =>
          exact (Hall _ _ Hl)
      end ].

Ltac solve_tables_ok :=
  split; simpl;
  repeat first [ assumption | apply map_Forall_insert_2 | apply map_Forall_delete ];
  solve_likes_ok.

(** ** The likes counter *)

Section LikesInvariant.



Lemma express_handle_likes_ok F r db :
  express_likes_ok db -> express_likes_ok (fst (Express.handle F r db)).
Proof.
  intros Hok. pose proof Hok as [Hp Hc].
  destruct r; simpl; run_express; try assumption; solve_tables_ok.
Qed.

Lemma convex_run_likes_ok m s :
  convex_likes_ok s -> convex_likes_ok (Convex.run m s).
Proof.
  intros Hok. pose proof Hok as [Hp Hc].
  destruct m; simpl; run_convex; try assumption; solve_tables_ok.
Qed.

Lemma express_in_turn_likes_ok db : Express.in_turn db -> express_likes_ok db.
Proof.
  induction 1 as [db [Hp Hc] | F r db _ IH].
  - split; [rewrite Hp | rewrite Hc]; apply map_Forall_empty.
  - now apply express_handle_likes_ok.
Qed.

Lemma convex_reachable_likes_ok s : Convex.reachable s -> convex_likes_ok s.
Proof.
  induction 1 as [s [Hp Hc] | m s _ IH].
  - split; [rewrite Hp | rewrite Hc]; apply map_Forall_empty.
  - now apply convex_run_likes_ok.
Qed.

(** Run without another request in between, the [await]s of a handler are
    the handler. *)
Lemma advance_handle F r db :
  exists resp,
    Express.advance 3 (Express.awaits F r) db =
      (fst (Express.handle F r db), Express.Sent resp) /\
    snd (Express.handle F r db) = Returned resp.
Proof.
  destruct r; simpl;
    unfold Express.createPost_awaits, Express.likePost_awaits,
      Express.createComment_awaits, Express.likeComment_awaits,
      Express.deleteComment_awaits, Express.stretch;
    run_express; eexists; split; reflexivity.
Qed.

Lemma running_advance n t db ts ts' :
  Express.running db (ts ++ t :: ts') ->
  Express.running (fst (Express.advance n t db))
    (ts ++ snd (Express.advance n t db) :: ts').
Proof.
  revert t db. induction n as [|n IH]; intros t db H; [exact H |].
  destruct t as [r | next]; [exact H |].
  simpl. apply Express.running_call in H.
  destruct (next db) as [db' t']. now apply IH.
Qed.

Lemma in_turn_reachable db : Express.in_turn db -> Express.reachable db.
Proof.
  induction 1 as [db Hi | F r db _ [ts IH]].
  - exists []. now constructor.
  - apply (Express.running_arrival F r) in IH.
    apply (running_advance 3 _ _ []) in IH.
    destruct (advance_handle F r db) as (resp & Hrun & _).
    rewrite Hrun in IH. eexists. exact IH.
Qed.

Lemma advance_more n m t db :
  Express.advance (n + m) t db =
    Express.advance m (snd (Express.advance n t db)) (fst (Express.advance n t db)).
Proof.
  revert t db. induction n as [|n IH]; intros t db; [reflexivity |].
  destruct t as [r | next]; simpl; [now destruct m |].
  destruct (next db) as [db' t']. apply IH.
Qed.

(** The two store calls of [likePost] when the store serves: the first
    reads the post and writes nothing; the second, whenever it runs, updates
    the row the table then holds with what the first one read. *)
Lemma likePost_two_calls u id db p :
  Express.posts db !! id = Some p ->
  let hasLiked := includes (Express.post_likedBy p) (Express.user_id u) in
  exists t,
    Express.advance 1
      (Express.awaits Express.no_faults (Express.LikePost (Some u) id)) db = (db, t) /\
    forall db1 cur,
      Express.posts db1 !! id = Some cur ->
      fst (Express.advance 1 t db1) =
        Express.with_posts db1
          (<[id := Express.set_post_likes cur
                     (if hasLiked then Express.post_likes cur - 1
                      else Express.post_likes cur + 1)
                     (if hasLiked
                      then without (Express.post_likedBy p) (Express.user_id u)
                      else Express.post_likedBy cur ++ [Express.user_id u])]>
             (Express.posts db1)).
Proof.
  intros Hp hasLiked. eexists. split.
  - simpl. unfold Express.stretch, Express.post_findUnique, Express.call, bind, ret.
    simpl. rewrite Hp. reflexivity.
  - intros db1 cur Hcur. simpl.
    unfold Express.stretch, Express.post_update, Express.call, bind, ret.
    simpl. rewrite Hcur. reflexivity.
Qed.

(** A post liked by [a] and not by [b]: [a] unlikes and [b] likes at the
    same time.  [a]'s handler reads the post, [b]'s handler reads it and
    updates it, then [a]'s handler updates it: the array is set from what
    [a]'s handler read, without [b], and the counter has gone up and down. *)
Lemma likePost_interleaved db ts id p a b :
  Express.running db ts -> Express.posts db !! id = Some p ->
  includes (Express.post_likedBy p) (Express.user_id a) = true ->
  includes (Express.post_likedBy p) (Express.user_id b) = false ->
  exists db' ts',
    Express.running db' ts' /\
    Express.posts db' !! id =
      Some (Express.set_post_likes p (Express.post_likes p)
              (without (Express.post_likedBy p) (Express.user_id a))).
Proof.
  intros Hrun Hp Ha Hb.
  destruct (likePost_two_calls a id db p Hp) as (ta & Ha1 & Ha2).
  destruct (likePost_two_calls b id db p Hp) as (tb & Hb1 & Hb2).
  rewrite Ha in Ha2. rewrite Hb in Hb2.
  apply (Express.running_arrival Express.no_faults (Express.LikePost (Some a) id)) in Hrun.
  apply (Express.running_arrival Express.no_faults (Express.LikePost (Some b) id)) in Hrun.
  apply (running_advance 1 _ _ [_]) in Hrun.
  rewrite Ha1 in Hrun. cbn [fst snd app] in Hrun.
  apply (running_advance 1 _ _ []) in Hrun.
  rewrite Hb1 in Hrun. cbn [fst snd app] in Hrun.
  apply (running_advance 1 _ _ []) in Hrun. cbn [app] in Hrun.
  apply (running_advance 1 _ _ [_]) in Hrun.
  eexists. eexists. split; [exact Hrun |].
  rewrite (Ha2 _ (Express.set_post_likes p (Express.post_likes p + 1)
                    (Express.post_likedBy p ++ [Express.user_id b]))).
  - simpl. rewrite lookup_insert_eq. f_equal. unfold Express.set_post_likes. simpl.
    f_equal. lia.
  - rewrite (Hb2 db p Hp). simpl. apply lookup_insert_eq.
Qed.

Lemma length_without_le (l : list string) (x : string) :
  (length (without l x) <= length l)%nat.
Proof.
  induction l as [|y l IH]; simpl; [lia |].
  destruct (String.eqb y x); simpl; lia.
Qed.

Lemma length_without_lt (l : list string) (x : string) :
  In x l -> (length (without l x) < length l)%nat.
Proof.
  induction l as [|y l IH]; simpl; [tauto |].
  intros [-> | Hx].
  - rewrite String.eqb_refl. pose proof (length_without_le l x). lia.
  - destruct (String.eqb y x); simpl.
    + pose proof (length_without_le l x). lia.
    + apply IH in Hx. lia.
Qed.

(** C2. The Express server does not keep [likes = |likedBy|].  [likePost]
    reads the post with one store call and updates it with another, outside
    any transaction, and the calls of another request run in between.  Take
    a reachable database in which the counter of a post agrees with its
    array, [a] likes the post and [b] does not: when [a]'s unlike and [b]'s
    like interleave, a database is reached in which the array has lost [a]
    and never got [b] while the counter is what it was, one more than the
    array holds.  From the empty database: alice posts and likes, then
    alice's unlike and bob's like interleave, and the post has [likes = 1]
    and [likedBy = []].  The invariant holds as long as every request is
    answered before the next one starts, and it holds in every store
    reachable through the Convex mutations, which are transactions. *)
Theorem likes_diverge_when_toggles_interleave :
  (forall db id p a b,
     Express.reachable db -> Express.posts db !! id = Some p ->
     Express.post_likes p = Z.of_nat (length (Express.post_likedBy p)) ->
     In (Express.user_id a) (Express.post_likedBy p) ->
     ~ In (Express.user_id b) (Express.post_likedBy p) ->
     exists db' p',
       Express.reachable db' /\ Express.posts db' !! id = Some p' /\
       Express.post_likedBy p' =
         without (Express.post_likedBy p) (Express.user_id a) /\
       Express.post_likes p' = Express.post_likes p /\
       Express.post_likes p' <> Z.of_nat (length (Express.post_likedBy p'))) /\
  (exists db p,
     Express.reachable db /\ Express.posts db !! 0%nat = Some p /\
     Express.post_likes p = 1 /\ Express.post_likedBy p = []) /\
  (forall db, Express.in_turn db ->
     (forall id p, Express.posts db !! id = Some p ->
        Express.post_likes p = Z.of_nat (length (Express.post_likedBy p)) /\
        List.NoDup (Express.post_likedBy p)) /\
     (forall id c, Express.comments db !! id = Some c ->
        Express.comment_likes c = Z.of_nat (length (Express.comment_likedBy c)) /\
        List.NoDup (Express.comment_likedBy c))) /\
  (forall s, Convex.reachable s ->
     (forall id p, Convex.posts s !! id = Some p ->
        Convex.post_likes p = Z.of_nat (length (Convex.post_likedBy p)) /\
        List.NoDup (Convex.post_likedBy p)) /\
     (forall id c, Convex.comments s !! id = Some c ->
        Convex.comment_likes c = Z.of_nat (length (Convex.comment_likedBy c)) /\
        List.NoDup (Convex.comment_likedBy c))).
Proof.
  split; [| split; [| split]].
  - intros db id p a b [ts Hrun] Hp Hlikes Ha Hb.
    apply includes_In in Ha. apply includes_false in Hb.
    destruct (likePost_interleaved db ts id p a b Hrun Hp Ha Hb)
      as (db' & ts' & Hrun' & Hp').
    exists db'. eexists. split; [now exists ts' |]. split; [exact Hp' |].
    split; [reflexivity |]. split; [reflexivity |].
    simpl. rewrite Hlikes. apply includes_In in Ha.
    pose proof (length_without_lt (Express.post_likedBy p) (Express.user_id a) Ha).
    lia.
  - set (alice := Express.mkUser "alice" "STUDENT" (Some "CSE")).
    set (bob := Express.mkUser "bob" "STUDENT" (Some "CSE")).
    set (db :=
           fst (Express.handle Express.no_faults (Express.LikePost (Some alice) 0%nat)
             (fst (Express.handle Express.no_faults
                     (Express.CreatePost (Some alice) (Some "hello") None 1)
                     Express.empty_db)))).
    assert (Hdb : Express.reachable db).
    { apply in_turn_reachable. do 2 apply Express.in_turn_step.
      apply Express.in_turn_initial. split; reflexivity. }
    destruct Hdb as [ts Hrun].
    destruct (likePost_interleaved db ts 0%nat
                (Express.mkPost "alice" "hello" None None 1 ["alice"] 0 1) alice bob Hrun)
      as (db' & ts' & Hrun' & Hp'); [reflexivity | reflexivity | reflexivity |].
    exists db'. eexists. split; [now exists ts' |]. split; [exact Hp' |].
    split; reflexivity.
  - intros db [Hp Hc]%express_in_turn_likes_ok.
    split; [intros id p H; exact (Hp id p H) | intros id c H; exact (Hc id c H)].
  - intros s [Hp Hc]%convex_reachable_likes_ok.
    split; [intros id p H; exact (Hp id p H) | intros id c H; exact (Hc id c H)].
Qed.

End LikesInvariant.

(** ** The like toggle *)


Section Toggle.

Lemma express_likePost_toggles F u id db p :
  F Express.PostFindUnique = None -> F Express.PostUpdate = None ->
  Express.posts db !! id = Some p ->
  let t := toggleLike (Express.post_likes p, Express.post_likedBy p) (Express.user_id u) in
  let p' := Express.set_post_likes p (fst (snd t)) (snd (snd t)) in
  Express.likePost F (Some u) id db =
    (Express.with_posts db (<[id := p']> (Express.posts db)),
     Returned (Express.mkResponse 200
                 (if fst t then "Post liked" else "Post unliked")
                 (Express.PostData p'))).
Proof.
  intros H1 H2 Hp. unfold toggleLike. simpl.
  run_express; reflexivity.
Qed.

Lemma express_likeComment_toggles F u id db c :
  F Express.CommentFindUnique = None -> F Express.CommentUpdate = None ->
  Express.comments db !! id = Some c ->
  let t := toggleLike (Express.comment_likes c, Express.comment_likedBy c)
             (Express.user_id u) in
  let c' := Express.set_comment_likes c (fst (snd t)) (snd (snd t)) in
  Express.likeComment F (Some u) id db =
    (Express.with_comments db (<[id := c']> (Express.comments db)),
     Returned (Express.mkResponse 200
                 (if fst t then "Comment liked" else "Comment unliked")
                 (Express.CommentData c'))).
Proof.
  intros H1 H2 Hp. unfold toggleLike. simpl.
  run_express; reflexivity.
Qed.











End Toggle.

(** ** The comment counter *)


Section CommentCount.

(** Convex [createComment] adds one to the counter of the parent post. *)
Lemma convex_createComment_increments postId authorId content now s p :
  Convex.posts s !! postId = Some p ->
  Convex.posts (fst (Convex.createComment postId authorId content now s))
    !! postId =
  Some (Convex.set_post_commentCount p (Convex.post_commentCount p + 1)).
Proof.
  intros Hp. run_convex; simpl in *; simplify_eq.
  apply lookup_insert_eq.
Qed.

(** Convex [deleteComment] takes one from the counter, floored at 0. *)
Lemma convex_deleteComment_floors commentId userId s c p :
  Convex.comments s !! commentId = Some c ->
  Convex.comment_authorId c = userId ->
  Convex.posts s !! Convex.comment_postId c = Some p ->
  Convex.posts (fst (Convex.deleteComment commentId userId s))
    !! Convex.comment_postId c =
  Some (Convex.set_post_commentCount p (Z.max 0 (Convex.post_commentCount p - 1))).
Proof.
  intros Hc Ha Hp. run_convex; simpl in *; simplify_eq.
  - rewrite String.eqb_refl in *. discriminate.
  - apply lookup_insert_eq.
Qed.

Lemma convex_run_counts_ok m s : convex_counts_ok s -> convex_counts_ok (Convex.run m s).
Proof.
  unfold convex_counts_ok. intros Hok.
  destruct m; simpl; run_convex; try assumption;
    repeat first [ assumption | apply map_Forall_insert_2 ]; simpl;
    try lia;
    match goal with
    | Hl : ?m !! _ = Some ?p, Hall : map_Forall _ ?m |- _ =>
        pose proof (Hall _ _ Hl); simpl in *; lia
    end.
Qed.

(** Whatever mutations run, from any store whose counters are not negative
    (whether or not they agree with the number of live comments), no
    counter of the Convex store becomes negative. *)
Lemma convex_commentCount_never_negative ms s :
  convex_counts_ok s ->
  convex_counts_ok (fold_left (fun acc m => Convex.run m acc) ms s).
Proof.
  revert s. induction ms as [|m ms IH]; intros s Hok; simpl; [assumption |].
  apply IH. now apply convex_run_counts_ok.
Qed.

(** Express [deleteComment] takes one from the counter, with no floor. *)
Lemma express_deleteComment_decrements F u id db c p :
  F Express.CommentFindUnique = None -> F Express.CommentDelete = None ->
  F Express.PostUpdate = None ->
  Express.comments db !! id = Some c ->
  Express.comment_authorId c = Express.user_id u ->
  Express.posts db !! Express.comment_postId c = Some p ->
  Express.deleteComment F (Some u) id db =
    (Express.with_posts (Express.with_comments db (delete id (Express.comments db)))
       (<[Express.comment_postId c :=
            Express.set_post_commentCount p (Express.post_commentCount p - 1)]>
          (Express.posts db)),
     Returned (Express.reply 200 "Comment deleted successfully")).
Proof.
  intros H1 H2 H3 Hc Ha Hp. run_express; try reflexivity.
  rewrite Ha, String.eqb_refl in *. discriminate.
Qed.

(** C4. The Express [deleteComment] does not floor the counter.  A post is
    created; a comment is created on it while [post.update] fails, so the
    Comment row is written and the counter stays 0; the author then deletes
    the comment, the handler answers 200 and the counter of the post is
    -1. *)
Theorem express_commentCount_negative :
  let alice := Express.mkUser "alice" "STUDENT" (Some "CSE") in
  let db1 :=
    fst (Express.createPost Express.no_faults (Some alice) (Some "hello") None 1
           Express.empty_db) in
  let db2 :=
    fst (Express.createComment post_update_fails (Some alice) 0%nat
           (Some "first") 2 db1) in
  let db3 := fst (Express.deleteComment Express.no_faults (Some alice) 1%nat db2) in
  Express.post_commentCount <$> Express.posts db2 !! 0%nat = Some 0 /\
  Express.comment_postId <$> Express.comments db2 !! 1%nat = Some 0%nat /\
  snd (Express.deleteComment Express.no_faults (Some alice) 1%nat db2) =
    Returned (Express.reply 200 "Comment deleted successfully") /\
  Express.post_commentCount <$> Express.posts db3 !! 0%nat = Some (-1).
Proof. vm_compute. repeat split; reflexivity. Qed.

End CommentCount.

(** ** Recipient resolution *)

Section Resolution.
Import Express.

Lemma truthy_Some (x : string) : x <> "" -> truthy (Some x) = true.
Proof. intros H. simpl. apply String.eqb_neq in H. now rewrite H. Qed.

Lemma resolve_explicit F sender d db r rs :
  recipientIds d = Some (r :: rs) ->
  resolveRecipients F sender d db = (db, Returned ("INDIVIDUAL", r :: rs)).
Proof. intros H. unfold resolveRecipients. now rewrite H. Qed.

Lemma resolve_group F sender d db role :
  recipientIds d = None \/ recipientIds d = Some [] ->
  targetRole d = Some role -> role <> "" ->
  F UserFindMany = None ->
  resolveRecipients F sender d db =
    (db, Returned ("GROUP",
       List.map user_id
         (List.filter
            (user_matches
               (mkUserWhere (Some role)
                  (if truthy (targetBranch d) then Some (targetBranch d)
                   else if String.eqb (user_role sender) "OFFICIAL" then None
                   else if String.eqb (user_role sender) "TEACHER"
                        then Some (user_branch sender)
                        else None)))
            (users db)))).
Proof.
  intros Hids Hrole Hne HF. unfold resolveRecipients.
  rewrite Hrole, (truthy_Some role Hne).
  unfold user_findMany, call, bind, ret. rewrite HF.
  destruct Hids as [-> | ->]; reflexivity.
Qed.

End Resolution.

(** ** Notifications *)

Ltac run_messages :=
  unfold Express.sendMessage, Express.resolveRecipients, Express.internal_error,
    Express.log_error, Express.user_findMany, Express.message_create,
    Express.message_update_connect, Express.call;
  run_effects.

Section Notifications.
Import Express.

(** No path of [sendMessage] writes to the notification table. *)
Lemma sendMessage_keeps_notifications F user body now db :
  notifications (fst (sendMessage F user body now db)) = notifications db.
Proof. run_messages; reflexivity. Qed.

(** Marking one notification as read rewrites that row and no other. *)
Lemma markNotificationAsRead_one_row F u id db n :
  F NotificationFindUnique = None -> F NotificationUpdate = None ->
  notifications db !! id = Some n -> notif_userId n = user_id u ->
  let db' := fst (markNotificationAsRead F (Some u) id db) in
  notifications db' !! id = Some (set_notif_isRead n true) /\
  forall id', id' <> id -> notifications db' !! id' = notifications db !! id'.
Proof.
  intros H1 H2 Hn Hu. simpl.
  unfold markNotificationAsRead, notification_findUnique, notification_update, call.
  run_effects.
  - rewrite Hu, String.eqb_refl in *. discriminate.
  - split; [apply lookup_insert_eq |].
    intros id' Hne. now apply lookup_insert_ne.
Qed.

(** Deleting one notification removes that row and no other. *)
Lemma deleteNotification_one_row F u id db n :
  F NotificationFindUnique = None -> F NotificationDelete = None ->
  notifications db !! id = Some n -> notif_userId n = user_id u ->
  let db' := fst (deleteNotification F (Some u) id db) in
  notifications db' !! id = None /\
  forall id', id' <> id -> notifications db' !! id' = notifications db !! id'.
Proof.
  intros H1 H2 Hn Hu. simpl.
  unfold deleteNotification, notification_findUnique, notification_delete, call.
  run_effects.
  - rewrite Hu, String.eqb_refl in *. discriminate.
  - split; [apply lookup_delete_eq |].
    intros id' Hne. now apply lookup_delete_ne.
Qed.

(** C6. [sendMessage] creates no Notification record.  An OFFICIAL sends a
    GROUP message to the role STUDENT in a database with three students: the
    handler answers 201, the stored message has the three students as
    recipients, and the notification table is still empty. *)
Theorem sendMessage_group_creates_no_notification :
  let official := mkUser "o1" "OFFICIAL" None in
  let db :=
    mkDb [official; mkUser "t1" "TEACHER" (Some "CSE");
          mkUser "s1" "STUDENT" (Some "CSE"); mkUser "s2" "STUDENT" (Some "CSE");
          mkUser "s3" "STUDENT" (Some "IT")] [] ∅ ∅ ∅ 0 [] in
  let body := mkSendMessageBody (Some "Exam on Monday") (Some "STUDENT") None None in
  let out := sendMessage no_faults (Some official) body 10 db in
  status <$> (match snd out with Returned r => Some r | Thrown _ => None end)
    = Some 201%nat /\
  List.map (fun m => (msg_messageType m, msg_recipients m)) (messages (fst out))
    = [("GROUP", ["s1"; "s2"; "s3"])] /\
  notifications (fst out) = ∅ /\
  size (notifications (fst out)) = 0%nat.
Proof. vm_compute. repeat split; reflexivity. Qed.

(** C7. [createNotification] always returns: when the store serves
    [notification.create] the row is written, when the store fails the
    error is logged on the console and nothing else happens.  The tables of
    the operation that called it are left as they were, and whatever the
    caller does next runs. *)
Theorem createNotification_never_throws F userId type referenceId content now db :
  let out := createNotification F userId type referenceId content now db in
  snd out = Returned tt /\
  match F NotificationCreate with
  | None =>
      fst out =
        with_next_id
          (with_notifications db
             (<[next_id db := mkNotification userId type referenceId content false now]>
                (notifications db)))
          (S (next_id db))
  | Some e => fst out = console_error "Create notification error:" e db
  end /\
  users (fst out) = users db /\ messages (fst out) = messages db /\
  posts (fst out) = posts db /\ comments (fst out) = comments db /\
  forall (B : Type) (k : Prisma B),
    bind (createNotification F userId type referenceId content now) (fun _ => k) db
    = k (fst out).
Proof.
  unfold createNotification, notification_create, log_error, call, catch, bind, ret.
  destruct (F NotificationCreate) as [e|]; simpl; repeat split; reflexivity.
Qed.

End Notifications.

(** ** The permission gate of [sendMessage] *)

Section Gate.
Import Express.

Lemma content_accepted (c : string) : c <> "" -> Nat.leb 1 (String.length c) = true.
Proof. destruct c; [congruence | reflexivity]. Qed.

(** Once the body is accepted, the answer is 403 exactly when the gate,
    called with the defaulted target, refuses. *)
Lemma sendMessage_refused F u body d now db :
  sendMessageSchema body = Some d ->
  validateMessagePermissions u (or_else (targetRole d) "STUDENT")
    (or_null (targetBranch d)) = false ->
  sendMessage F (Some u) body now db =
    (db, Returned (reply 403 "Insufficient permissions to send message")).
Proof.
  intros Hd Hgate. unfold sendMessage, catch, ret. now rewrite Hd, Hgate.
Qed.

Lemma sendMessage_let_through F u body d now db :
  sendMessageSchema body = Some d ->
  validateMessagePermissions u (or_else (targetRole d) "STUDENT")
    (or_null (targetBranch d)) = true ->
  exists db' r,
    sendMessage F (Some u) body now db = (db', Returned r) /\
    (status r = 201%nat \/ status r = 500%nat).
Proof.
  intros Hd Hgate. unfold sendMessage. rewrite Hd, Hgate. simpl.
  run_messages; eexists _, _; (split; [reflexivity | simpl; auto]).
Qed.

(** A TEACHER who has a branch is refused whenever the request names no
    target branch, also when it names a target role. *)
Lemma teacher_without_targetBranch_denied F u b body d now db :
  user_role u = "TEACHER" -> user_branch u = Some b ->
  sendMessageSchema body = Some d -> truthy (targetBranch d) = false ->
  sendMessage F (Some u) body now db =
    (db, Returned (reply 403 "Insufficient permissions to send message")).
Proof.
  intros Hr Hb Hd Ht. apply (sendMessage_refused F u body d now db Hd).
  unfold validateMessagePermissions, or_null. rewrite Hr, Hb, Ht. simpl.
  apply andb_false_r.
Qed.

(** C10. A request with explicit recipient ids and neither target role nor
    target branch is gated by [validateMessagePermissions sender "STUDENT"
    null]: a TEACHER who has a branch is answered 403 and nothing is written,
    whoever the recipients are; a STUDENT or an OFFICIAL passes the gate and
    is answered 201 or 500, never 403, whoever the recipients are. *)
Theorem individual_message_gate F u c ids now db :
  c <> "" ->
  let body := mkSendMessageBody (Some c) None None (Some ids) in
  (validateMessagePermissions u "STUDENT" None = false ->
     sendMessage F (Some u) body now db =
       (db, Returned (reply 403 "Insufficient permissions to send message"))) /\
  (validateMessagePermissions u "STUDENT" None = true ->
     exists db' r,
       sendMessage F (Some u) body now db = (db', Returned r) /\
       (status r = 201%nat \/ status r = 500%nat)) /\
  (forall b, user_role u = "TEACHER" -> user_branch u = Some b ->
     validateMessagePermissions u "STUDENT" None = false /\
     sendMessage F (Some u) body now db =
       (db, Returned (reply 403 "Insufficient permissions to send message"))) /\
  (user_role u = "STUDENT" \/ user_role u = "OFFICIAL" ->
     validateMessagePermissions u "STUDENT" None = true /\
     exists db' r,
       sendMessage F (Some u) body now db = (db', Returned r) /\
       (status r = 201%nat \/ status r = 500%nat)).
Proof.
  intros Hc body.
  assert (Hd : sendMessageSchema body =
               Some (mkSendMessageData c None None (Some ids))).
  { unfold sendMessageSchema, body.
    cbn [body_content body_targetRole body_targetBranch body_recipientIds].
    now rewrite (content_accepted c Hc). }
  split; [| split; [| split]].
  - intros Hgate. now apply (sendMessage_refused F u body _ now db Hd).
  - intros Hgate. now apply (sendMessage_let_through F u body _ now db Hd).
  - intros b Hr Hb.
    assert (Hgate : validateMessagePermissions u "STUDENT" None = false).
    { unfold validateMessagePermissions. now rewrite Hr, Hb. }
    split; [exact Hgate |].
    now apply (sendMessage_refused F u body _ now db Hd).
  - intros Hr.
    assert (Hgate : validateMessagePermissions u "STUDENT" None = true).
    { unfold validateMessagePermissions. destruct Hr as [-> | ->]; reflexivity. }
    split; [exact Hgate |].
    now apply (sendMessage_let_through F u body _ now db Hd).
Qed.

Lemma individual_message_gate_witness :
  let db :=
    mkDb [mkUser "t1" "TEACHER" (Some "CSE"); mkUser "s1" "STUDENT" (Some "CSE");
          mkUser "o1" "OFFICIAL" None] [] ∅ ∅ ∅ 0 [] in
  let body := mkSendMessageBody (Some "hello") None None (Some ["s1"]) in
  sendMessage no_faults (Some (mkUser "t1" "TEACHER" (Some "CSE"))) body 5 db =
    (db, Returned (reply 403 "Insufficient permissions to send message")) /\
  validateMessagePermissions (mkUser "s1" "STUDENT" (Some "CSE")) "STUDENT" None = true.
Proof.
  intros db body. split.
  - refine (proj2 (proj1 (proj2 (proj2
      (individual_message_gate no_faults (mkUser "t1" "TEACHER" (Some "CSE"))
         "hello" ["s1"] 5 db _))) "CSE" _ _)); [discriminate | reflexivity | reflexivity].
  - refine (proj1 (proj2 (proj2 (proj2
      (individual_message_gate no_faults (mkUser "s1" "STUDENT" (Some "CSE"))
         "hello" ["o1"] 5 db _))) _)); [discriminate | now left].
Defined.

End Gate.

(** ** The stable sort *)

Section StableSortFacts.
Context {A : Type} (key : A -> Z).

Lemma filter_none (f : A -> bool) (l : list A) :
  (forall z, In z l -> f z = false) -> List.filter f l = [].
Proof.
  induction l as [|y l IH]; simpl; intros H; [reflexivity |].
  rewrite (H y) by now left. apply IH. intros z Hz. apply H. now right.
Qed.

Lemma insert_by_perm (x : A) (l : list A) : Permutation (insert_by key x l) (x :: l).
Proof.
  induction l as [|y l IH]; simpl; [reflexivity |].
  destruct (Z.ltb (key x) (key y)); [reflexivity |].
  rewrite IH. apply perm_swap.
Qed.

Lemma fold_insert_perm (l acc : list A) :
  Permutation (fold_left (fun a x => insert_by key x a) l acc) (acc ++ l).
Proof.
  revert acc. induction l as [|x l IH]; intros acc; simpl.
  - now rewrite app_nil_r.
  - rewrite IH, insert_by_perm. apply Permutation_middle.
Qed.

Lemma sort_by_perm (l : list A) : Permutation (sort_by key l) l.
Proof. apply (fold_insert_perm l []). Qed.

Lemma insert_by_sorted (x : A) (l : list A) :
  StronglySorted (key_le key) l -> StronglySorted (key_le key) (insert_by key x l).
Proof.
  induction 1 as [|y l Hl IH Hy]; simpl.
  - repeat constructor.
  - destruct (Z.ltb_spec (key x) (key y)) as [Hlt | Hge].
    + constructor; [now constructor |].
      constructor; [unfold key_le; lia |].
      eapply List.Forall_impl; [| exact Hy]. unfold key_le. intros z Hz. lia.
    + constructor; [exact IH |].
      rewrite List.Forall_forall. intros z Hz.
      apply (Permutation_in _ (insert_by_perm x l)) in Hz.
      destruct Hz as [<- | Hz]; [exact Hge |].
      rewrite List.Forall_forall in Hy. now apply Hy.
Qed.

Lemma fold_insert_sorted (l acc : list A) :
  StronglySorted (key_le key) acc ->
  StronglySorted (key_le key) (fold_left (fun a x => insert_by key x a) l acc).
Proof.
  revert acc. induction l as [|x l IH]; intros acc Hacc; simpl; [assumption |].
  apply IH. now apply insert_by_sorted.
Qed.

Lemma sort_by_sorted (l : list A) : StronglySorted (key_le key) (sort_by key l).
Proof. apply fold_insert_sorted. constructor. Qed.

(** Stability: an element is inserted after the elements of its own key. *)
Lemma insert_by_has_key (t : Z) (x : A) (l : list A) :
  StronglySorted (key_le key) l ->
  List.filter (has_key key t) (insert_by key x l) =
  List.filter (has_key key t) l ++ (if has_key key t x then [x] else []).
Proof.
  induction 1 as [|y l Hl IH Hy]; simpl.
  - destruct (has_key key t x); reflexivity.
  - destruct (Z.ltb_spec (key x) (key y)) as [Hlt | Hge]; simpl.
    + destruct (has_key key t x) eqn:Hx; [| now rewrite app_nil_r].
      apply Z.eqb_eq in Hx.
      assert (Hy' : has_key key t y = false) by (apply Z.eqb_neq; lia).
      rewrite Hy'.
      assert (Hnone : List.filter (has_key key t) l = []).
      { apply filter_none. intros z Hz.
        rewrite List.Forall_forall in Hy. specialize (Hy z Hz).
        unfold key_le in Hy. apply Z.eqb_neq. lia. }
      now rewrite Hnone.
    + rewrite IH. destruct (has_key key t y); reflexivity.
Qed.

Lemma fold_insert_has_key (t : Z) (l acc : list A) :
  StronglySorted (key_le key) acc ->
  List.filter (has_key key t) (fold_left (fun a x => insert_by key x a) l acc) =
  List.filter (has_key key t) acc ++ List.filter (has_key key t) l.
Proof.
  revert acc. induction l as [|x l IH]; intros acc Hacc; simpl.
  - now rewrite app_nil_r.
  - rewrite IH by now apply insert_by_sorted.
    rewrite insert_by_has_key by assumption.
    rewrite <- app_assoc. destruct (has_key key t x); reflexivity.
Qed.

Lemma sort_by_stable (t : Z) (l : list A) :
  List.filter (has_key key t) (sort_by key l) = List.filter (has_key key t) l.
Proof. apply (fold_insert_has_key t l []). constructor. Qed.

(** Two sorted lists that agree on the elements of each key, in order, are
    the same list. *)

(** Two sorted lists that agree on the elements of each key, in order, are
    the same list. *)
Lemma sorted_by_keys_unique (l1 l2 : list A) :
  StronglySorted (key_le key) l1 -> StronglySorted (key_le key) l2 ->
  (forall t, List.filter (has_key key t) l1 = List.filter (has_key key t) l2) ->
  l1 = l2.
Proof.
  intros H1. revert l2. induction H1 as [|x l1 Hl1 IH Hx]; intros l2 H2 Heq.
  - destruct l2 as [|y l2]; [reflexivity |].
    specialize (Heq (key y)). simpl in Heq. unfold has_key at 1 in Heq.
    rewrite Z.eqb_refl in Heq. discriminate.
  - destruct H2 as [|y l2 Hl2 Hy].
    + specialize (Heq (key x)). simpl in Heq. unfold has_key at 1 in Heq.
      rewrite Z.eqb_refl in Heq. discriminate.
    + assert (Hxx : has_key key (key x) x = true) by apply Z.eqb_refl.
      assert (Hyy : has_key key (key y) y = true) by apply Z.eqb_refl.
      assert (Hxy : key x = key y).
      { assert (Hin2 : In x (List.filter (has_key key (key x)) (y :: l2))).
        { rewrite <- Heq. simpl. rewrite Hxx. now left. }
        assert (Hin1 : In y (List.filter (has_key key (key y)) (x :: l1))).
        { rewrite Heq. simpl. rewrite Hyy. now left. }
        apply filter_In in Hin2 as [Hin2 _].
        apply filter_In in Hin1 as [Hin1 _].
        rewrite List.Forall_forall in Hx, Hy. unfold key_le in Hx, Hy.
        destruct Hin2 as [<- | Hin2]; [reflexivity |].
        destruct Hin1 as [<- | Hin1]; [reflexivity |].
        specialize (Hx y Hin1). specialize (Hy x Hin2). lia. }
      pose proof (Heq (key x)) as Hhead. simpl in Hhead.
      rewrite Hxx in Hhead. rewrite Hxy, Hyy in Hhead.
      injection Hhead as Hhd Htl. subst y. f_equal.
      apply IH; [assumption |].
      intros t. specialize (Heq t). simpl in Heq.
      destruct (has_key key t x) eqn:Ht; [| exact Heq].
      now injection Heq.
Qed.

End StableSortFacts.

Section SortedUnique.
Context {A : Type} (key : A -> Z).

Lemma Permutation_filter (f : A -> bool) (l l' : list A) :
  Permutation l l' -> Permutation (List.filter f l) (List.filter f l').
Proof.
  induction 1 as [| x l l' _ IH | x y l | l l' l'' _ IH1 _ IH2]; simpl.
  - reflexivity.
  - destruct (f x); [now constructor | assumption].
  - destruct (f x), (f y); try reflexivity. apply perm_swap.
  - now transitivity (List.filter f l').
Qed.

Lemma increasing_is_sorted (l : list A) :
  StronglySorted (key_lt key) l -> StronglySorted (key_le key) l.
Proof.
  induction 1 as [|x l _ IH Hx]; constructor; [assumption |].
  eapply List.Forall_impl; [| exact Hx]. unfold key_lt, key_le. intros; lia.
Qed.

Lemma increasing_one_per_key (t : Z) (l : list A) :
  StronglySorted (key_lt key) l -> (length (List.filter (has_key key t) l) <= 1)%nat.
Proof.
  induction 1 as [|x l _ IH Hx]; simpl; [lia |].
  destruct (has_key key t x) eqn:Ht; [| assumption].
  rewrite (filter_none (has_key key t) l); [simpl; lia |].
  intros z Hz. rewrite List.Forall_forall in Hx. specialize (Hx z Hz).
  unfold key_lt in Hx. apply Z.eqb_eq in Ht. apply Z.eqb_neq. lia.
Qed.

Lemma Permutation_short (l l' : list A) :
  Permutation l l' -> (length l' <= 1)%nat -> l = l'.
Proof.
  intros Hp Hlen. destruct l' as [|x [|y l']]; simpl in Hlen; try lia.
  - now apply Permutation_nil, Permutation_sym.
  - now apply Permutation_length_1_inv, Permutation_sym.
Qed.

(** A sorted arrangement of elements with pairwise distinct keys is the
    increasing one. *)
Lemma sorted_perm_unique (l l' : list A) :
  StronglySorted (key_le key) l -> Permutation l l' -> StronglySorted (key_lt key) l' ->
  l = l'.
Proof.
  intros Hl Hp Hl'.
  apply (sorted_by_keys_unique key); [assumption | now apply increasing_is_sorted |].
  intros t. apply Permutation_short.
  - now apply Permutation_filter.
  - now apply increasing_one_per_key.
Qed.

Lemma sort_by_increasing (l l' : list A) :
  Permutation l l' -> StronglySorted (key_lt key) l' -> sort_by key l = l'.
Proof.
  intros Hp Hl'. apply sorted_perm_unique; [apply sort_by_sorted | | assumption].
  now rewrite sort_by_perm.
Qed.

End SortedUnique.

(** ** Conversation assembly *)


Section Conversation.

Lemma filter_constant {A} (c : bool) (l : list A) :
  List.filter (fun _ => c) l = if c then l else [].
Proof.
  destruct c; induction l as [|x l IH]; simpl; [reflexivity | | reflexivity |];
    now rewrite ?IH.
Qed.

(** What the filter of [getConversation] selects: the whole table when the
    two arguments are the words ['senderId'] and ['recipientIds'], nothing
    otherwise. *)
Lemma getConversation_selects a b s :
  Convex.getConversation a b s =
    if (String.eqb "senderId" a && String.eqb "recipientIds" b)
       || (String.eqb "senderId" b && String.eqb "recipientIds" a)
    then sort_by Convex.msg_timestamp (Convex.messages s)
    else [].
Proof.
  unfold Convex.getConversation, Convex.q_and, Convex.q_eq.
  rewrite !filter_constant.
  destruct (String.eqb "senderId" a && String.eqb "recipientIds" b) eqn:E1.
  - apply andb_true_iff in E1 as [Ha Hb].
    apply String.eqb_eq in Ha. apply String.eqb_eq in Hb. subst a b.
    change (String.eqb "senderId" "recipientIds") with false.
    cbn [andb orb]. now rewrite app_nil_r.
  - cbn [orb app].
    destruct (String.eqb "senderId" b && String.eqb "recipientIds" a); reflexivity.
Qed.

Lemma getConversationWithUser_sorts F u userId db :
  F Express.MessageFindMany = None ->
  Express.getConversationWithUser F (Some u) userId db =
    (db, Returned (Express.mkResponse 200 ""
       (Express.MessagesData
          (sort_by Express.msg_createdAt
             (List.filter (express_between (Express.user_id u) userId)
                (Express.messages db)))))).
Proof.
  intros HF.
  unfold Express.getConversationWithUser, Express.message_findMany_asc,
    Express.call, catch, bind, ret.
  now rewrite HF.
Qed.

(** C9. The Convex [getConversation] does not assemble the thread.  Its
    filter compares the words ['senderId'] and ['recipientIds'] with the two
    user ids instead of the fields of the message, so for users who are not
    named like these fields it returns no message at all, whatever the
    table holds.  For A to B at 1, B to A at 2 and A to B at 3, inserted out
    of order, the thread of the spec is [[1, 2, 3]] and [getConversation]
    returns [[]], from either side.  The Express [getConversationWithUser]
    selects on the fields: it returns the three messages as [[1, 2, 3]], and
    so for any three messages of a thread with increasing dates. *)
Theorem convex_getConversation_selects_nothing :
  (forall a b s,
     a <> "senderId" -> b <> "senderId" -> Convex.getConversation a b s = []) /\
  (let first := Convex.mkMessage 1 "A" "first" None None ["B"] false 1 in
   let second := Convex.mkMessage 2 "B" "second" None None ["A"] false 2 in
   let third := Convex.mkMessage 0 "A" "third" None None ["B"] false 3 in
   Convex.messages shuffled_store = [third; first; second] /\
   assembleThread "A" "B" shuffled_store = [first; second; third] /\
   Convex.getConversation "A" "B" shuffled_store = [] /\
   Convex.getConversation "B" "A" shuffled_store = []) /\
  (let first := Express.mkMessage 1 "A" "first" "INDIVIDUAL" None None ["B"] false 1 in
   let second := Express.mkMessage 2 "B" "second" "INDIVIDUAL" None None ["A"] false 2 in
   let third := Express.mkMessage 0 "A" "third" "INDIVIDUAL" None None ["B"] false 3 in
   Express.messages shuffled_db = [third; first; second] /\
   Express.getConversationWithUser Express.no_faults
     (Some (Express.mkUser "A" "STUDENT" None)) "B" shuffled_db =
     (shuffled_db,
      Returned (Express.mkResponse 200 "" (Express.MessagesData [first; second; third])))) /\
  (forall F u userId db m1 m2 m3,
     F Express.MessageFindMany = None ->
     Permutation
       (List.filter (express_between (Express.user_id u) userId) (Express.messages db))
       [m1; m2; m3] ->
     Express.msg_createdAt m1 < Express.msg_createdAt m2 ->
     Express.msg_createdAt m2 < Express.msg_createdAt m3 ->
     Express.getConversationWithUser F (Some u) userId db =
       (db, Returned (Express.mkResponse 200 "" (Express.MessagesData [m1; m2; m3])))).
Proof.
  split; [| split; [| split]].
  - intros a b s Ha Hb. rewrite getConversation_selects.
    apply not_eq_sym, String.eqb_neq in Ha. apply not_eq_sym, String.eqb_neq in Hb.
    now rewrite Ha, Hb.
  - repeat split; reflexivity.
  - split; reflexivity.
  - intros F u userId db m1 m2 m3 HF Hp H12 H23.
    rewrite getConversationWithUser_sorts by exact HF. do 4 f_equal.
    apply sort_by_increasing; [assumption |].
    repeat constructor; unfold key_lt; lia.
Qed.

End Conversation.

(** ** What a failed handler leaves behind *)


Section Atomicity.
Import Express.

Lemma sendMessage_refused_writes_nothing F user body now db db' r :
  sendMessage F user body now db = (db', Returned r) ->
  refused r = true -> db' = db.
Proof.
  intros Hrun Href. revert Hrun.
  run_messages; intros; simplify_eq; try reflexivity; discriminate.
Qed.

Lemma handle_refused_writes_nothing F req db db' r :
  handle F req db = (db', Returned r) ->
  refused r = true -> db' = db.
Proof.
  intros Hrun Href. revert Hrun.
  destruct req; simpl; run_express; intros; simplify_eq;
    try reflexivity; discriminate.
Qed.

Lemma likePost_all_or_nothing F user id db :
  (exists u p,
     user = Some u /\ posts db !! id = Some p /\
     let t := toggleLike (post_likes p, post_likedBy p) (user_id u) in
     let p' := set_post_likes p (fst (snd t)) (snd (snd t)) in
     likePost F user id db =
       (with_posts db (<[id := p']> (posts db)),
        Returned (mkResponse 200 (if fst t then "Post liked" else "Post unliked")
                    (PostData p')))) \/
  (exists r, likePost F user id db = (db, Returned r) /\ refused r = true) \/
  (exists e, likePost F user id db =
               (console_error "Like post error:" e db,
                Returned (reply 500 "Internal server error"))).
Proof.
  destruct user as [u|]; [| right; left; eexists; split; reflexivity].
  destruct (F PostFindUnique) as [e|] eqn:H1;
    [right; right; exists e; run_express; reflexivity |].
  destruct (posts db !! id) as [p|] eqn:Hp;
    [| right; left; eexists; run_express; split; reflexivity].
  destruct (F PostUpdate) as [e|] eqn:H2;
    [right; right; exists e; run_express; reflexivity |].
  left. exists u, p. split; [reflexivity |]. split; [reflexivity |].
  now apply express_likePost_toggles.
Qed.

Lemma likeComment_all_or_nothing F user id db :
  (exists u c,
     user = Some u /\ comments db !! id = Some c /\
     let t := toggleLike (comment_likes c, comment_likedBy c) (user_id u) in
     let c' := set_comment_likes c (fst (snd t)) (snd (snd t)) in
     likeComment F user id db =
       (with_comments db (<[id := c']> (comments db)),
        Returned (mkResponse 200
                    (if fst t then "Comment liked" else "Comment unliked")
                    (CommentData c')))) \/
  (exists r, likeComment F user id db = (db, Returned r) /\ refused r = true) \/
  (exists e, likeComment F user id db =
               (console_error "Like comment error:" e db,
                Returned (reply 500 "Internal server error"))).
Proof.
  destruct user as [u|]; [| right; left; eexists; split; reflexivity].
  destruct (F CommentFindUnique) as [e|] eqn:H1;
    [right; right; exists e; run_express; reflexivity |].
  destruct (comments db !! id) as [c|] eqn:Hc;
    [| right; left; eexists; run_express; split; reflexivity].
  destruct (F CommentUpdate) as [e|] eqn:H2;
    [right; right; exists e; run_express; reflexivity |].
  left. exists u, c. split; [reflexivity |]. split; [reflexivity |].
  now apply express_likeComment_toggles.
Qed.

Lemma createComment_two_writes F u postId c x now db p :
  F PostFindUnique = None -> F CommentCreate = None ->
  contentSchema c = Some x -> posts db !! postId = Some p ->
  let comment := mkComment postId (user_id u) x default_likes default_likedBy now in
  let db1 :=
    with_next_id (with_comments db (<[next_id db := comment]> (comments db)))
      (S (next_id db)) in
  createComment F (Some u) postId c now db =
    match F PostUpdate with
    | None =>
        (with_posts db1
           (<[postId := set_post_commentCount p (post_commentCount p + 1)]> (posts db)),
         Returned (mkResponse 201 "Comment created successfully" (CommentData comment)))
    | Some e =>
        (console_error "Create comment error:" e db1,
         Returned (reply 500 "Internal server error"))
    end.
Proof.
  intros H1 H2 Hx Hp. simpl. run_express; reflexivity.
Qed.

Lemma deleteComment_two_writes F u id db c p :
  F CommentFindUnique = None -> F CommentDelete = None ->
  comments db !! id = Some c -> comment_authorId c = user_id u ->
  posts db !! comment_postId c = Some p ->
  let db1 := with_comments db (delete id (comments db)) in
  deleteComment F (Some u) id db =
    match F PostUpdate with
    | None =>
        (with_posts db1
           (<[comment_postId c :=
                set_post_commentCount p (post_commentCount p - 1)]> (posts db)),
         Returned (reply 200 "Comment deleted successfully"))
    | Some e =>
        (console_error "Delete comment error:" e db1,
         Returned (reply 500 "Internal server error"))
    end.
Proof.
  intros H1 H2 Hc Ha Hp. simpl. run_express; try reflexivity.
  all: rewrite Ha, String.eqb_refl in *; discriminate.
Qed.

Lemma sendMessage_two_writes F u body d now db ty r rs :
  sendMessageSchema body = Some d ->
  validateMessagePermissions u (or_else (targetRole d) "STUDENT")
    (or_null (targetBranch d)) = true ->
  resolveRecipients F u d db = (db, Returned (ty, r :: rs)) ->
  F MessageCreate = None ->
  let m := mkMessage (next_id db) (user_id u) (content d) ty
             (or_null (targetRole d)) (or_null (targetBranch d)) [] false now in
  let db1 := with_next_id (with_messages db (messages db ++ [m])) (S (next_id db)) in
  sendMessage F (Some u) body now db =
    match message_update_connect F (next_id db) (r :: rs) db1 with
    | (db2, Returned _) =>
        (db2, Returned (mkResponse 201 "Message sent successfully" (MessageData m)))
    | (db2, Thrown e) =>
        (console_error "Send message error:" e db2,
         Returned (reply 500 "Internal server error"))
    end.
Proof.
  intros Hd Hgate Hres HF. simpl.
  unfold sendMessage. rewrite Hd, Hgate. simpl.
  unfold catch, bind at 1. rewrite Hres.
  unfold bind at 1, message_create, call. rewrite HF. simpl.
  unfold bind, ret, internal_error, log_error.
  destruct (message_update_connect _ _ _ _) as [db2 [m'|e]]; reflexivity.
Qed.

(** [connect] fails, and writes nothing, when one of the ids names no user. *)
Lemma connect_unknown_recipient F id ids db :
  forallb (is_user db) ids = false ->
  exists e, message_update_connect F id ids db = (db, Thrown e).
Proof.
  intros H. unfold message_update_connect, call.
  destruct (F MessageUpdate) as [e|]; [now exists e |].
  destruct (find_message db id); [| now eexists].
  rewrite H. now eexists.
Qed.

(** A Convex mutation is all or nothing, whatever its handler. *)
Lemma mutation_all_or_nothing {A} (handler : Convex.Ctx A) s :
  (exists e, Convex.mutation handler s = (s, Thrown e)) \/
  (exists s' a, Convex.mutation handler s = (s', Returned a)).
Proof.
  unfold Convex.mutation. destruct (handler s) as [s' [a | e]]; eauto.
Qed.

Lemma convex_createComment_both postId authorId content now s p :
  Convex.posts s !! postId = Some p ->
  let s' := fst (Convex.createComment postId authorId content now s) in
  snd (Convex.createComment postId authorId content now s) =
    Returned (Convex.next_id s) /\
  Convex.comments s' !! Convex.next_id s =
    Some (Convex.mkComment postId authorId content 0 [] now) /\
  Convex.posts s' !! postId =
    Some (Convex.set_post_commentCount p (Convex.post_commentCount p + 1)).
Proof.
  intros Hp. run_convex; simpl in *; simplify_eq.
  repeat split; apply lookup_insert_eq.
Qed.

Lemma convex_deleteComment_both commentId userId s c p :
  Convex.comments s !! commentId = Some c ->
  Convex.comment_authorId c = userId ->
  Convex.posts s !! Convex.comment_postId c = Some p ->
  let s' := fst (Convex.deleteComment commentId userId s) in
  snd (Convex.deleteComment commentId userId s) = Returned true /\
  Convex.comments s' !! commentId = None /\
  Convex.posts s' !! Convex.comment_postId c =
    Some (Convex.set_post_commentCount p (Z.max 0 (Convex.post_commentCount p - 1))).
Proof.
  intros Hc Ha Hp. run_convex; simpl in *; simplify_eq.
  - rewrite String.eqb_refl in *. discriminate.
  - repeat split; [apply lookup_delete_eq | apply lookup_insert_eq].
Qed.

Lemma convex_deleteComment_refusal commentId userId s :
  (Convex.comments s !! commentId = None \/
   exists c, Convex.comments s !! commentId = Some c /\ Convex.comment_authorId c <> userId) ->
  exists e, Convex.deleteComment commentId userId s = (s, Thrown e).
Proof.
  intros [Hc | (c & Hc & Hne)].
  - run_convex; simpl in *; simplify_eq; eauto.
  - apply String.eqb_neq in Hne. run_convex; simpl in *; simplify_eq; eauto.
    all: rewrite Hne in *; discriminate.
Qed.

(** C8. The Express handlers leave partial writes, the Convex mutations
    do not.  [sendMessage] creates the Message row with one store call and
    links the recipients with another, outside any transaction: when an
    explicit recipient id names no user the second call throws, the answer
    is 500 and the row stays, without recipients.  The same holds of
    [createComment] and [deleteComment] when [post.update] fails: the
    Comment row is there, or gone, and the counter is as before.  The Convex
    functions are mutations: each is all or nothing, [createComment] stores
    the row together with the incremented counter, [deleteComment] removes
    the row together with the decrement, and a refused [deleteComment]
    leaves the store as it was. *)
Theorem express_partial_writes_convex_all_or_nothing :
  (let official := mkUser "o1" "OFFICIAL" None in
   let db := mkDb [official] [] ∅ ∅ ∅ 0 [] in
   let sent :=
     sendMessage no_faults (Some official)
       (mkSendMessageBody (Some "hello") None None (Some ["ghost"])) 7 db in
   snd sent = Returned (reply 500 "Internal server error") /\
   messages db = [] /\
   messages (fst sent) =
     [mkMessage 0 "o1" "hello" "INDIVIDUAL" None None [] false 7]) /\
  (forall F u body d now db r rs,
     sendMessageSchema body = Some d ->
     validateMessagePermissions u (or_else (targetRole d) "STUDENT")
       (or_null (targetBranch d)) = true ->
     recipientIds d = Some (r :: rs) -> forallb (is_user db) (r :: rs) = false ->
     F MessageCreate = None ->
     exists e,
       sendMessage F (Some u) body now db =
         (console_error "Send message error:" e
            (with_next_id
               (with_messages db
                  (messages db ++
                   [mkMessage (next_id db) (user_id u) (content d) "INDIVIDUAL"
                      (or_null (targetRole d)) (or_null (targetBranch d)) [] false now]))
               (S (next_id db))),
          Returned (reply 500 "Internal server error"))) /\
  (forall F u postId c x now db p e,
     F PostFindUnique = None -> F CommentCreate = None -> F PostUpdate = Some e ->
     contentSchema c = Some x -> posts db !! postId = Some p ->
     let db' := fst (createComment F (Some u) postId c now db) in
     snd (createComment F (Some u) postId c now db) =
       Returned (reply 500 "Internal server error") /\
     comments db' !! next_id db =
       Some (mkComment postId (user_id u) x default_likes default_likedBy now) /\
     posts db' !! postId = Some p) /\
  (forall F u id db c p e,
     F CommentFindUnique = None -> F CommentDelete = None -> F PostUpdate = Some e ->
     comments db !! id = Some c -> comment_authorId c = user_id u ->
     posts db !! comment_postId c = Some p ->
     let db' := fst (deleteComment F (Some u) id db) in
     snd (deleteComment F (Some u) id db) =
       Returned (reply 500 "Internal server error") /\
     comments db' !! id = None /\
     posts db' !! comment_postId c = Some p) /\
  (forall A (handler : Convex.Ctx A) s,
     (exists e, Convex.mutation handler s = (s, Thrown e)) \/
     (exists s' a, Convex.mutation handler s = (s', Returned a))) /\
  (forall postId authorId content now s p,
     Convex.posts s !! postId = Some p ->
     let s' := fst (Convex.createComment postId authorId content now s) in
     snd (Convex.createComment postId authorId content now s) =
       Returned (Convex.next_id s) /\
     Convex.comments s' !! Convex.next_id s =
       Some (Convex.mkComment postId authorId content 0 [] now) /\
     Convex.posts s' !! postId =
       Some (Convex.set_post_commentCount p (Convex.post_commentCount p + 1))) /\
  (forall commentId userId s c p,
     Convex.comments s !! commentId = Some c ->
     Convex.comment_authorId c = userId ->
     Convex.posts s !! Convex.comment_postId c = Some p ->
     let s' := fst (Convex.deleteComment commentId userId s) in
     snd (Convex.deleteComment commentId userId s) = Returned true /\
     Convex.comments s' !! commentId = None /\
     Convex.posts s' !! Convex.comment_postId c =
       Some (Convex.set_post_commentCount p
               (Z.max 0 (Convex.post_commentCount p - 1)))) /\
  (forall commentId userId s,
     (Convex.comments s !! commentId = None \/
      exists c, Convex.comments s !! commentId = Some c /\
                Convex.comment_authorId c <> userId) ->
     exists e, Convex.deleteComment commentId userId s = (s, Thrown e)).
Proof.
  split; [vm_compute; repeat split; reflexivity |].
  split.
  { intros F u body d now db r rs Hd Hgate Hids Hghost HF.
    rewrite (sendMessage_two_writes F u body d now db "INDIVIDUAL" r rs Hd Hgate
               (resolve_explicit F u d db r rs Hids) HF).
    match goal with
    | |- context [message_update_connect F ?i ?l ?db1] =>
        destruct (connect_unknown_recipient F i l db1 Hghost) as [e He]; rewrite He
    end.
    now exists e. }
  split.
  { intros F u postId c x now db p e H1 H2 H3 Hx Hp.
    rewrite (createComment_two_writes F u postId c x now db p H1 H2 Hx Hp), H3.
    simpl. split; [reflexivity |]. split; [apply lookup_insert_eq | exact Hp]. }
  split.
  { intros F u id db c p e H1 H2 H3 Hc Ha Hp.
    rewrite (deleteComment_two_writes F u id db c p H1 H2 Hc Ha Hp), H3.
    simpl. split; [reflexivity |]. split; [apply lookup_delete_eq | exact Hp]. }
  split; [intros A handler s; apply mutation_all_or_nothing |].
  split; [exact convex_createComment_both |].
  split; [exact convex_deleteComment_both | exact convex_deleteComment_refusal].
Qed.

End Atomicity.

(** * Further properties of the handlers *)

(** ** Middleware *)

Ltac run_handlers :=
  unfold Handlers.failed, Express.internal_error, Express.log_error,
    Handlers.user_findUnique, Handlers.user_update, Handlers.message_findUnique,
    Handlers.message_findMany_desc, Handlers.message_update,
    Handlers.message_delete, Handlers.notification_findMany_desc,
    Handlers.notification_updateMany_read, Handlers.post_findMany_desc,
    Handlers.post_count, Handlers.comment_findMany_asc, Handlers.comment_count,
    Handlers.post_findUnique_with_comments, Express.user_findMany,
    Express.post_findUnique, Express.post_update, Express.comment_findUnique,
    Express.comment_update, Handlers.call, Express.call;
  run_effects.

Section Middleware.
Import Express Handlers.

(** X1. [checkBranchAccess] calls [next()] for an authenticated user exactly
    when the user is an OFFICIAL, or the route names no branch, or the branch
    named is the user's own; every other authenticated user is answered 403,
    and a request without user 401. *)
Theorem checkBranchAccess_own_branch_only :
  (forall branch,
     checkBranchAccess None branch = Responded (reply 401 "Authentication required")) /\
  (forall u branch,
     checkBranchAccess (Some u) branch = Continue tt <->
     user_role u = "OFFICIAL" \/ truthy branch = false \/ user_branch u = branch) /\
  (forall u branch,
     checkBranchAccess (Some u) branch <> Continue tt ->
     checkBranchAccess (Some u) branch =
       Responded (reply 403 "Access denied to this branch")).
Proof.
  split; [reflexivity |]. split.
  - intros u branch. unfold checkBranchAccess.
    destruct (String.eqb_spec (user_role u) "OFFICIAL") as [Hr | Hr];
      [tauto |].
    destruct (truthy branch) eqn:Ht; simpl; [| tauto].
    destruct (strict_eq (user_branch u) branch) eqn:Hb; simpl.
    + apply strict_eq_spec in Hb. tauto.
    + split; [discriminate |]. intros [H | [H | H]]; try congruence.
      apply strict_eq_spec in H. congruence.
  - intros u branch. unfold checkBranchAccess.
    destruct (String.eqb (user_role u) "OFFICIAL"); [congruence |].
    destruct (truthy branch && negb (strict_eq (user_branch u) branch));
      [reflexivity | congruence].
Qed.

Lemma bearer_prefix token :
  String.prefix "Bearer " (String.append "Bearer " token) = true.
Proof. simpl. destruct token; reflexivity. Qed.

Lemma authenticate_success G verifyToken authorization db db' u :
  authenticate G verifyToken authorization db = (db', Returned (Continue u)) ->
  db' = db /\ In u (users db) /\
  exists header token,
    authorization = Some header /\ String.prefix "Bearer " header = true /\
    nth_error (split_on Ascii.Space header) 1 = Some token /\
    verifyToken token = Some (user_id u).
Proof.
  unfold authenticate. run_handlers; intros; simplify_eq.
  split; [reflexivity |].
  match goal with H : find_user _ _ = Some _ |- _ => rename H into Hfind end.
  unfold find_user in Hfind. apply find_some in Hfind as [Hin Hid].
  apply String.eqb_eq in Hid. split; [assumption |].
  eexists _, _. split; [reflexivity |].
  match goal with H : _ || _ = false |- _ => apply orb_false_iff in H as [_ Hp] end.
  apply negb_false_iff in Hp.
  split; [exact Hp |].
  match goal with H : split_on _ _ = _ |- _ => rewrite H end.
  simpl. split; [reflexivity | now rewrite Hid].
Qed.

Lemma authenticate_answers G verifyToken authorization db :
  exists db' out,
    authenticate G verifyToken authorization db = (db', Returned out) /\
    match out with
    | Continue _ => True
    | Responded r => status r = 401%nat /\ db' = db \/ status r = 500%nat
    end.
Proof.
  unfold authenticate. run_handlers; eexists _, _; (split; [reflexivity |]); simpl; auto.
Qed.

(** X2. [authenticate] never throws.  When it calls [next()], the user it
    attached is a row of the user table whose id is the [id] claim of the
    token, the second space-separated field of a header that starts with
    [Bearer ]; nothing was written.  Otherwise it answers 401 with nothing
    written, or 500.  In particular a valid token whose user is no longer in
    the table is answered 401. *)
Theorem authenticate_attaches_stored_user :
  (forall G verifyToken authorization db db' u,
     authenticate G verifyToken authorization db = (db', Returned (Continue u)) ->
     db' = db /\ In u (users db) /\
     exists header token,
       authorization = Some header /\ String.prefix "Bearer " header = true /\
       nth_error (split_on Ascii.Space header) 1 = Some token /\
       verifyToken token = Some (user_id u)) /\
  (forall G verifyToken authorization db,
     exists db' out,
       authenticate G verifyToken authorization db = (db', Returned out) /\
       match out with
       | Continue _ => True
       | Responded r => status r = 401%nat /\ db' = db \/ status r = 500%nat
       end) /\
  (forall G verifyToken token id db,
     G UserFindUnique = None -> verifyToken token = Some id ->
     nth_error (split_on Ascii.Space (String.append "Bearer " token)) 1 = Some token ->
     find_user db id = None ->
     authenticate G verifyToken (Some (String.append "Bearer " token)) db =
       (db, Returned (Responded (reply 401 "User not found")))).
Proof.
  split; [exact authenticate_success |].
  split; [exact authenticate_answers |].
  intros G verifyToken token id db HG Hv Htok Hfind.
  unfold authenticate. rewrite bearer_prefix, Htok, Hv.
  replace (truthy (Some (String.append "Bearer " token))) with true by reflexivity.
  run_handlers; first [reflexivity | congruence].
Qed.

Lemma authenticate_attaches_stored_user_witness :
  let verifyToken := fun t : string => if String.eqb t "tok1" then Some "s1" else None in
  let s1 := mkUser "s1" "STUDENT" (Some "CSE") in
  let db := mkDb [mkUser "o1" "OFFICIAL" None; s1] [] ∅ ∅ ∅ 0 [] in
  authenticate no_faults verifyToken (Some "Bearer tok1") db
    = (db, Returned (Continue s1)) /\
  In s1 (users db) /\
  authenticate no_faults verifyToken (Some "Bearer tok1") (mkDb [] [] ∅ ∅ ∅ 0 [])
    = (mkDb [] [] ∅ ∅ ∅ 0 [], Returned (Responded (reply 401 "User not found"))).
Proof.
  intros verifyToken s1 db.
  destruct authenticate_attaches_stored_user as (Hok & _ & Hgone).
  split; [reflexivity |]. split.
  - exact (proj1 (proj2 (Hok no_faults verifyToken (Some "Bearer tok1") db db s1
                           eq_refl))).
  - apply (Hgone no_faults verifyToken "tok1" "s1"); reflexivity.
Defined.

End Middleware.

(** ** The user directory *)

Section Users.
Import Express Handlers.

(** X3. The user directory and the fan-out agree: for a role and a branch,
    both non-empty, [getAllUsers] lists the users of that role and branch,
    and a GROUP message aimed at them resolves to the ids of exactly those
    users, in the same order.  With no role, [getAllUsers] for a branch is
    [getUsersByBranch]. *)
Theorem directory_matches_fanout F sender d db role branch :
  F UserFindMany = None -> role <> "" -> branch <> "" ->
  recipientIds d = None -> targetRole d = Some role -> targetBranch d = Some branch ->
  exists listed,
    getAllUsers F (Some role) (Some branch) db =
      (db, Returned (mkAnswer 200 "" (Some listed))) /\
    resolveRecipients F sender d db =
      (db, Returned ("GROUP", List.map user_id listed)) /\
    (forall u, In u listed <->
       In u (users db) /\ user_role u = role /\ user_branch u = Some branch) /\
    getAllUsers F None (Some branch) db = getUsersByBranch F branch db.
Proof.
  intros HF Hr Hb Hids Hrole Hbranch.
  exists (List.filter (user_matches (mkUserWhere (Some role) (Some (Some branch))))
            (users db)).
  split; [| split; [| split]].
  - unfold getAllUsers. rewrite (truthy_Some role Hr), (truthy_Some branch Hb).
    run_handlers; congruence.
  - rewrite (resolve_group F sender d db role); auto.
    now rewrite Hbranch, (truthy_Some branch Hb).
  - intros u. rewrite filter_In. unfold user_matches. simpl.
    rewrite andb_true_iff, String.eqb_eq, strict_eq_spec. tauto.
  - unfold getAllUsers, getUsersByBranch. rewrite (truthy_Some branch Hb).
    run_handlers; congruence.
Qed.

Lemma directory_matches_fanout_witness :
  let db :=
    mkDb [mkUser "o1" "OFFICIAL" None; mkUser "t1" "TEACHER" (Some "IT");
          mkUser "s1" "STUDENT" (Some "CSE"); mkUser "s2" "STUDENT" (Some "IT")]
      [] ∅ ∅ ∅ 0 [] in
  getAllUsers Express.no_faults (Some "STUDENT") (Some "IT") db =
    (db, Returned (mkAnswer 200 "" (Some [mkUser "s2" "STUDENT" (Some "IT")]))) /\
  resolveRecipients Express.no_faults (mkUser "o1" "OFFICIAL" None)
    (mkSendMessageData "hi" (Some "STUDENT") (Some "IT") None) db =
    (db, Returned ("GROUP", ["s2"])).
Proof.
  intros db.
  destruct (directory_matches_fanout Express.no_faults
              (mkUser "o1" "OFFICIAL" None)
              (mkSendMessageData "hi" (Some "STUDENT") (Some "IT") None)
              db "STUDENT" "IT")
    as (listed & H1 & H2 & _); try reflexivity; try discriminate.
  split; reflexivity.
Defined.

Lemma strict_eq_false (a b : option string) : a <> b -> strict_eq a b = false.
Proof.
  intros H. destruct (strict_eq a b) eqn:E; [| reflexivity].
  apply strict_eq_spec in E. congruence.
Qed.

(** The table after [user.update]: the row found is rewritten, the others
    are the rows of before. *)
Lemma find_rewritten id (x : User) (l : list User) :
  user_id x = id ->
  List.find (fun u => String.eqb (user_id u) id)
    (List.filter (fun u => negb (String.eqb (user_id u) id)) l ++ [x]) = Some x.
Proof.
  intros Hx. induction l as [|y l IH]; simpl.
  - now rewrite Hx, String.eqb_refl.
  - destruct (String.eqb (user_id y) id) eqn:E; simpl; [exact IH |].
    now rewrite E.
Qed.

Lemma rewritten_row id (l : list User) cur :
  List.NoDup (List.map user_id l) ->
  List.find (fun u => String.eqb (user_id u) id) l = Some cur ->
  Permutation l (List.filter (fun u => negb (String.eqb (user_id u) id)) l ++ [cur]).
Proof.
  induction l as [|y l IH]; simpl; [discriminate |].
  intros Hnd. apply List.NoDup_cons_iff in Hnd as [Hy Hnd].
  destruct (String.eqb_spec (user_id y) id) as [He | Hne]; simpl.
  - intros [= <-].
    assert (Hrest : List.filter (fun u => negb (String.eqb (user_id u) id)) l = l).
    { apply List.forallb_filter_id, forallb_forall. intros z Hz.
      apply negb_true_iff, String.eqb_neq. intros Hzid. apply Hy, in_map_iff.
      exists z. split; [congruence | exact Hz]. }
    rewrite Hrest. apply Permutation_cons_append.
  - intros Hfind. constructor. now apply IH.
Qed.

(** What [updateUser] leaves in the user table: the table of before, or
    that table with the row of [id] rewritten by a function that keeps id
    and role. *)
Lemma updateUser_table G user id branch db :
  users (fst (updateUser G user id branch db)) = users db \/
  exists cur f,
    find_user db id = Some cur /\
    (forall x, user_id (f x) = user_id x /\ user_role (f x) = user_role x) /\
    users (fst (updateUser G user id branch db)) =
      List.filter (fun u => negb (String.eqb (user_id u) id)) (users db) ++ [f cur].
Proof.
  unfold updateUser. run_handlers; auto.
  all: match goal with
       | H : find_user _ _ = Some ?c |- context [_ ++ [mkUser _ _ ?B]] =>
           right; exists c, (fun x => mkUser (user_id x) (user_role x) B);
           split; [exact H |]; split; [intros x; simpl; auto | reflexivity]
       end.
Qed.

Lemma updateUser_refusal G user id branch db existing :
  G UserFindUnique = None -> find_user db id = Some existing ->
  user_id <$> user <> Some id -> user_role <$> user <> Some "OFFICIAL" ->
  updateUser G user id branch db = (db, Returned (refuse 403 "Insufficient permissions")).
Proof.
  intros HG Hfind Hid Hrole. unfold updateUser.
  pose proof (strict_eq_false _ _ Hid) as H1.
  pose proof (strict_eq_false _ _ Hrole) as H2.
  run_handlers; try congruence.
  all: rewrite H1, H2 in *; simpl in *; congruence.
Qed.

(** X4. [updateUser] never changes the id or the role of a user and never
    adds or removes one: every user with another id is in the table as it
    was, every user of the table afterwards has the id and the role of a
    user of before, and when the ids are unique the table holds the same
    ids with the same roles, each as many times as before.  A caller who is
    neither the user named nor an OFFICIAL (or no user at all) is answered
    403 and nothing is written. *)
Theorem updateUser_keeps_roles :
  (forall G user id branch db v,
     In v (users db) -> user_id v <> id ->
     In v (users (fst (updateUser G user id branch db)))) /\
  (forall G user id branch db v',
     In v' (users (fst (updateUser G user id branch db))) ->
     exists v, In v (users db) /\
               user_id v' = user_id v /\ user_role v' = user_role v /\
               (user_id v <> id -> v' = v)) /\
  (forall G user id branch db,
     List.NoDup (List.map user_id (users db)) ->
     Permutation
       (List.map (fun v => (user_id v, user_role v))
          (users (fst (updateUser G user id branch db))))
       (List.map (fun v => (user_id v, user_role v)) (users db))) /\
  (forall G user id branch db existing,
     G UserFindUnique = None -> find_user db id = Some existing ->
     user_id <$> user <> Some id -> user_role <$> user <> Some "OFFICIAL" ->
     updateUser G user id branch db =
       (db, Returned (refuse 403 "Insufficient permissions"))).
Proof.
  split; [| split; [| split; [| exact updateUser_refusal]]].
  - intros G user id branch db v Hin Hne.
    destruct (updateUser_table G user id branch db) as [-> | (cur & f & _ & _ & ->)];
      [exact Hin |].
    apply in_or_app. left. apply filter_In. split; [exact Hin |].
    now apply negb_true_iff, String.eqb_neq.
  - intros G user id branch db v'.
    destruct (updateUser_table G user id branch db)
      as [-> | (cur & f & Hfind & Hf & ->)].
    + intros Hin. exists v'. auto.
    + intros [Hin | [<- | []]]%in_app_or.
      * apply filter_In in Hin as [Hin _]. exists v'. auto.
      * apply find_some in Hfind as [Hin He]. apply String.eqb_eq in He.
        exists cur. destruct (Hf cur). repeat split; auto. congruence.
  - intros G user id branch db Hnd.
    destruct (updateUser_table G user id branch db)
      as [-> | (cur & f & Hfind & Hf & ->)]; [reflexivity |].
    rewrite (rewritten_row id (users db) cur Hnd Hfind) at 2.
    rewrite !List.map_app. simpl. destruct (Hf cur) as [-> ->]. reflexivity.
Qed.

Lemma updateUser_keeps_roles_witness :
  let db :=
    mkDb [mkUser "t1" "TEACHER" (Some "IT"); mkUser "s1" "STUDENT" (Some "CSE")]
      [] ∅ ∅ ∅ 0 [] in
  updateUser no_faults (Some (mkUser "s1" "STUDENT" (Some "CSE"))) "t1"
    (Some (Some "CSE")) db =
    (db, Returned (refuse 403 "Insufficient permissions")) /\
  Permutation
    (List.map (fun v => (user_id v, user_role v))
       (users (fst (updateUser no_faults (Some (mkUser "t1" "TEACHER" (Some "IT"))) "t1"
                      (Some (Some "CSE")) db))))
    [("t1", "TEACHER"); ("s1", "STUDENT")].
Proof.
  intros db. split.
  - apply (proj2 (proj2 (proj2 updateUser_keeps_roles)) no_faults _ "t1" _ db
             (mkUser "t1" "TEACHER" (Some "IT")));
      [reflexivity | reflexivity | discriminate | discriminate].
  - apply (proj1 (proj2 (proj2 updateUser_keeps_roles)) no_faults _ "t1" _ db).
    repeat constructor; simpl; intuition discriminate.
Defined.

(** X5. A user who is not an OFFICIAL sets their own branch through
    [updateUser], and the messaging gate follows: a TEACHER who moved to
    branch [b] is let through for the students of [b]. *)
Theorem teacher_moves_branch G u b db :
  G UserFindUnique = None -> G UserUpdate = None ->
  user_role u = "TEACHER" -> find_user db (user_id u) = Some u ->
  let moved := mkUser (user_id u) "TEACHER" (Some b) in
  exists db',
    updateUser G (Some u) (user_id u) (Some (Some b)) db =
      (db', Returned (mkAnswer 200 "User updated successfully" (Some moved))) /\
    find_user db' (user_id u) = Some moved /\
    validateMessagePermissions moved "STUDENT" (Some b) = true.
Proof.
  intros H1 H2 Hr Hfind moved.
  exists (with_users db
            (List.filter (fun x => negb (String.eqb (user_id x) (user_id u))) (users db)
             ++ [moved])).
  split; [| split].
  - unfold updateUser, catch, bind, ret, user_findUnique, user_update, call.
    rewrite H1, H2, Hfind. simpl. rewrite String.eqb_refl. simpl.
    rewrite Hfind, Hr. reflexivity.
  - unfold find_user. simpl. now apply find_rewritten.
  - unfold validateMessagePermissions, moved. simpl. now rewrite String.eqb_refl.
Qed.

Lemma teacher_moves_branch_witness :
  let t1 := mkUser "t1" "TEACHER" (Some "CSE") in
  let db := mkDb [t1; mkUser "s1" "STUDENT" (Some "IT")] [] ∅ ∅ ∅ 0 [] in
  validateMessagePermissions t1 "STUDENT" (Some "IT") = false /\
  exists db',
    updateUser no_faults (Some t1) "t1" (Some (Some "IT")) db =
      (db', Returned (mkAnswer 200 "User updated successfully"
                        (Some (mkUser "t1" "TEACHER" (Some "IT"))))) /\
    find_user db' "t1" = Some (mkUser "t1" "TEACHER" (Some "IT")) /\
    validateMessagePermissions (mkUser "t1" "TEACHER" (Some "IT")) "STUDENT" (Some "IT")
      = true.
Proof.
  intros t1 db. split; [reflexivity |].
  apply (teacher_moves_branch no_faults t1 "IT" db); reflexivity.
Defined.

End Users.

(** ** Inbox, read receipts and deletion of messages *)

Section Messages.
Import Express Handlers.

Lemma In_sort_by {A} (key : A -> Z) (x : A) (l : list A) :
  In x (sort_by key l) <-> In x l.
Proof.
  split; apply Permutation_in; [| symmetry]; apply sort_by_perm.
Qed.

Lemma between_involves a b m : express_between a b m = true -> involves a m = true.
Proof.
  unfold express_between, involves.
  rewrite !orb_true_iff, !andb_true_iff. tauto.
Qed.

Lemma getConversations_lists F u db :
  F MessageFindMany = None ->
  getConversations F (Some u) db =
    (db, Returned (mkResponse 200 ""
       (MessagesData
          (sort_by (fun m => - msg_createdAt m)
             (List.filter (involves (user_id u)) (messages db)))))).
Proof. intros HF. unfold getConversations. run_handlers; congruence. Qed.

(** X6. [getConversations] returns the messages the user sent or received,
    newest first, and every message of the user's thread with anyone, as
    [getConversationWithUser] returns it, is among them. *)
Theorem inbox_holds_every_thread F u db :
  F MessageFindMany = None ->
  exists inbox,
    getConversations F (Some u) db =
      (db, Returned (mkResponse 200 "" (MessagesData inbox))) /\
    StronglySorted (key_le (fun m => - msg_createdAt m)) inbox /\
    (forall m, In m inbox <->
       In m (messages db) /\
       (msg_senderId m = user_id u \/ In (user_id u) (msg_recipients m))) /\
    forall other thread,
      getConversationWithUser F (Some u) other db =
        (db, Returned (mkResponse 200 "" (MessagesData thread))) ->
      incl thread inbox.
Proof.
  intros HF. eexists. split; [now apply getConversations_lists |].
  split; [apply sort_by_sorted |]. split.
  - intros m. rewrite In_sort_by, filter_In. unfold involves.
    rewrite orb_true_iff, String.eqb_eq, includes_In. tauto.
  - intros other thread Hthread.
    rewrite (getConversationWithUser_sorts F u other db HF) in Hthread.
    injection Hthread as <-. intros m.
    rewrite !In_sort_by, !filter_In. intros [Hin Hb].
    split; [assumption |]. now apply between_involves with other.
Qed.

Lemma inbox_holds_every_thread_witness :
  let a := mkUser "a" "STUDENT" (Some "CSE") in
  let m1 := mkMessage 0 "a" "hi" "INDIVIDUAL" None None ["b"] false 1 in
  let m2 := mkMessage 1 "c" "yo" "INDIVIDUAL" None None ["a"] false 2 in
  let m3 := mkMessage 2 "b" "no" "INDIVIDUAL" None None ["c"] false 3 in
  let db := mkDb [a] [m1; m2; m3] ∅ ∅ ∅ 3 [] in
  getConversations Express.no_faults (Some a) db =
    (db, Returned (mkResponse 200 "" (MessagesData [m2; m1]))).
Proof.
  intros a m1 m2 m3 db.
  destruct (inbox_holds_every_thread Express.no_faults a db eq_refl)
    as (inbox & Hrun & _).
  rewrite Hrun. vm_compute in Hrun. injection Hrun as <-. reflexivity.
Defined.

Lemma find_message_map (db : Db) id (f : Message -> Message) m :
  (forall x, msg_id (f x) = msg_id x) ->
  find_message db id = Some m ->
  find_message
    (with_messages db
       (List.map (fun x => if Nat.eqb (msg_id x) id then f x else x) (messages db)))
    id = Some (f m).
Proof.
  intros Hf. unfold find_message. simpl. generalize (messages db).
  induction l as [|x l IH]; simpl; [discriminate |].
  destruct (Nat.eqb (msg_id x) id) eqn:E; simpl.
  - intros [= ->]. now rewrite Hf, E.
  - rewrite E. exact IH.
Qed.

Lemma markMessageAsRead_refused F G u id db m :
  G MessageFindUnique = None -> find_message db id = Some m ->
  includes (msg_recipients m) (user_id u) = false ->
  markMessageAsRead F G (Some u) id db =
    (db, Returned (reply 403 "Insufficient permissions")).
Proof.
  intros HG Hm Hr. unfold markMessageAsRead.
  run_handlers; try first [reflexivity | congruence].
  all: rewrite Hr in *; discriminate.
Qed.

Lemma markMessageAsRead_done F G u id db m :
  G MessageFindUnique = None -> F MessageUpdate = None ->
  find_message db id = Some m ->
  includes (msg_recipients m) (user_id u) = true ->
  markMessageAsRead F G (Some u) id db =
    (with_messages db
       (List.map (fun x => if Nat.eqb (msg_id x) id then set_isRead x true else x)
          (messages db)),
     Returned (mkResponse 200 "Message marked as read" (MessageData (set_isRead m true)))).
Proof.
  intros HG HF Hm Hr. unfold markMessageAsRead.
  run_handlers; try first [reflexivity | congruence].
  all: rewrite Hr in *; discriminate.
Qed.

(** X7. Only a recipient marks a message as read: anyone else, the sender
    included, is answered 403 and nothing is written.  The flag is on the
    message, not on the recipient: once one recipient marked it, every row
    with that id is read, for the sender and for the other recipients alike;
    the other messages are untouched, and marking again changes nothing. *)
Theorem markMessageAsRead_by_recipient_only :
  (forall F G u id db m,
     G MessageFindUnique = None -> find_message db id = Some m ->
     includes (msg_recipients m) (user_id u) = false ->
     markMessageAsRead F G (Some u) id db =
       (db, Returned (reply 403 "Insufficient permissions"))) /\
  (forall F G u id db m,
     G MessageFindUnique = None -> F MessageUpdate = None ->
     find_message db id = Some m ->
     includes (msg_recipients m) (user_id u) = true ->
     exists db',
       markMessageAsRead F G (Some u) id db =
         (db', Returned (mkResponse 200 "Message marked as read"
                           (MessageData (set_isRead m true)))) /\
       Forall2 (fun old new =>
                  new = if Nat.eqb (msg_id old) id then set_isRead old true else old)
         (messages db) (messages db') /\
       markMessageAsRead F G (Some u) id db' =
         (db', Returned (mkResponse 200 "Message marked as read"
                           (MessageData (set_isRead m true))))).
Proof.
  split; [exact markMessageAsRead_refused |].
  intros F G u id db m HG HF Hm Hr. eexists.
  split; [now apply markMessageAsRead_done |]. split.
  - simpl. generalize (messages db). induction l; simpl; constructor; auto.
  - rewrite (markMessageAsRead_done F G u id _ (set_isRead m true) HG HF);
      [| apply (find_message_map db id (fun x => set_isRead x true) m);
         [reflexivity | assumption]
       | exact Hr].
    f_equal. unfold with_messages. simpl. f_equal.
    rewrite List.map_map. apply List.map_ext. intros x.
    destruct (Nat.eqb (msg_id x) id) eqn:E; simpl; now rewrite E.
Qed.

Lemma markMessageAsRead_by_recipient_only_witness :
  let s1 := mkUser "s1" "STUDENT" (Some "CSE") in
  let o1 := mkUser "o1" "OFFICIAL" None in
  let m := mkMessage 0 "o1" "Exam" "GROUP" (Some "STUDENT") None ["s1"; "s2"] false 1 in
  let db := mkDb [o1; s1] [m] ∅ ∅ ∅ 1 [] in
  markMessageAsRead Express.no_faults no_faults (Some o1) 0%nat db =
    (db, Returned (reply 403 "Insufficient permissions")) /\
  exists db',
    markMessageAsRead Express.no_faults no_faults (Some s1) 0%nat db =
      (db', Returned (mkResponse 200 "Message marked as read"
                        (MessageData (set_isRead m true)))) /\
    messages db' = [set_isRead m true].
Proof.
  intros s1 o1 m db.
  destruct markMessageAsRead_by_recipient_only as [Hno Hyes]. split.
  - apply (Hno Express.no_faults no_faults o1 0%nat db m); reflexivity.
  - destruct (Hyes Express.no_faults no_faults s1 0%nat db m)
      as (db' & Hrun & Hrows & _); try reflexivity.
    exists db'. split; [exact Hrun |].
    vm_compute in Hrun. injection Hrun as <-. reflexivity.
Defined.

Lemma deleteMessage_refused G u id db m :
  G MessageFindUnique = None -> find_message db id = Some m ->
  msg_senderId m <> user_id u ->
  deleteMessage G (Some u) id db =
    (db, Returned (reply 403 "Insufficient permissions")).
Proof.
  intros HG Hm Hs. apply String.eqb_neq in Hs.
  unfold deleteMessage. run_handlers; try first [reflexivity | congruence].
  all: rewrite Hs in *; discriminate.
Qed.

Lemma deleteMessage_done G u id db m :
  G MessageFindUnique = None -> G MessageDelete = None ->
  find_message db id = Some m -> msg_senderId m = user_id u ->
  deleteMessage G (Some u) id db =
    (with_messages db
       (List.filter (fun x => negb (Nat.eqb (msg_id x) id)) (messages db)),
     Returned (reply 200 "Message deleted successfully")).
Proof.
  intros H1 H2 Hm Hs. unfold deleteMessage.
  run_handlers; try first [reflexivity | congruence].
  rewrite Hs, String.eqb_refl in *. discriminate.
Qed.

(** X8. Only the sender deletes a message: anyone else, a recipient
    included, is answered 403 and nothing is written.  After the deletion no
    thread shows a message with that id, to anyone, and every other message
    is still stored. *)
Theorem deleteMessage_by_sender_only :
  (forall G u id db m,
     G MessageFindUnique = None -> find_message db id = Some m ->
     msg_senderId m <> user_id u ->
     deleteMessage G (Some u) id db =
       (db, Returned (reply 403 "Insufficient permissions"))) /\
  (forall F G u id db m,
     G MessageFindUnique = None -> G MessageDelete = None ->
     find_message db id = Some m -> msg_senderId m = user_id u ->
     exists db',
       deleteMessage G (Some u) id db =
         (db', Returned (reply 200 "Message deleted successfully")) /\
       (forall x, In x (messages db') <-> In x (messages db) /\ msg_id x <> id) /\
       forall viewer other thread,
         getConversationWithUser F (Some viewer) other db' =
           (db', Returned (mkResponse 200 "" (MessagesData thread))) ->
         forall x, In x thread -> msg_id x <> id).
Proof.
  split; [exact deleteMessage_refused |].
  intros F G u id db m H1 H2 Hm Hs. eexists.
  split; [now apply (deleteMessage_done G u id db m) |].
  assert (Hin : forall x,
            In x (List.filter (fun x => negb (Nat.eqb (msg_id x) id)) (messages db))
            <-> In x (messages db) /\ msg_id x <> id).
  { intros x. rewrite filter_In, negb_true_iff, Nat.eqb_neq. tauto. }
  split; [exact Hin |].
  intros viewer other thread Hthread x Hx.
  unfold getConversationWithUser, message_findMany_asc, Express.call in Hthread.
  revert Hthread. run_effects; intros; simplify_eq.
  apply In_sort_by, filter_In in Hx as [Hx _]. simpl in Hx.
  now apply Hin in Hx.
Qed.

Lemma deleteMessage_by_sender_only_witness :
  let a := mkUser "a" "STUDENT" (Some "CSE") in
  let b := mkUser "b" "STUDENT" (Some "CSE") in
  let m1 := mkMessage 0 "a" "hi" "INDIVIDUAL" None None ["b"] false 1 in
  let m2 := mkMessage 1 "b" "yo" "INDIVIDUAL" None None ["a"] false 2 in
  let db := mkDb [a; b] [m1; m2] ∅ ∅ ∅ 2 [] in
  deleteMessage no_faults (Some b) 0%nat db =
    (db, Returned (reply 403 "Insufficient permissions")) /\
  deleteMessage no_faults (Some a) 0%nat db =
    (with_messages db [m2], Returned (reply 200 "Message deleted successfully")).
Proof.
  intros a b m1 m2 db.
  destruct deleteMessage_by_sender_only as [Hno Hyes]. split.
  - apply (Hno no_faults b 0%nat db m1); [reflexivity | reflexivity | discriminate].
  - destruct (Hyes Express.no_faults no_faults a 0%nat db m1 eq_refl eq_refl
                eq_refl eq_refl) as (db' & Hrun & _).
    rewrite Hrun. vm_compute in Hrun. injection Hrun as <-. reflexivity.
Defined.

End Messages.

(** ** Delivery of a sent message *)

Section Delivery.
Import Express Handlers.

Lemma includes_app (l k : list string) (x : string) :
  includes (l ++ k) x = includes l x || includes k x.
Proof.
  induction l as [|y l IH]; simpl; [reflexivity |].
  now rewrite IH, orb_assoc.
Qed.

Lemma includes_connect (ids cur : list string) (x : string) :
  includes (connect cur ids) x = includes cur x || includes ids x.
Proof.
  unfold connect. revert cur. induction ids as [|i ids IH]; intros cur; simpl.
  - now rewrite orb_false_r.
  - rewrite IH. destruct (includes cur i) eqn:Hi.
    + destruct (String.eqb_spec i x) as [-> | Hne]; simpl; [| reflexivity].
      rewrite Hi. reflexivity.
    + rewrite includes_app. simpl. rewrite orb_false_r.
      now rewrite orb_assoc.
Qed.

Lemma find_message_new (db : Db) (m : Message) :
  well_numbered db -> msg_id m = next_id db ->
  List.find (fun x => Nat.eqb (msg_id x) (next_id db)) (messages db ++ [m]) = Some m /\
  List.map (fun x => if Nat.eqb (msg_id x) (next_id db) then m else x) (messages db)
    = messages db.
Proof.
  unfold well_numbered. intros Hwn Hm.
  induction Hwn as [|x l Hx _ IH]; simpl.
  - rewrite Hm, Nat.eqb_refl. auto.
  - assert (E : Nat.eqb (msg_id x) (next_id db) = false) by (apply Nat.eqb_neq; lia).
    rewrite E. destruct IH as [IH1 IH2]. split; [exact IH1 | now rewrite IH2].
Qed.

(** X9. A message sent to explicit recipients who all exist is delivered.
    In a database whose message ids the counter has passed, when the gate
    lets the sender through and the store serves, [sendMessage] answers 201
    and appends one unread INDIVIDUAL message whose recipients are the ids
    given; that message then shows in the sender's thread with each
    recipient and in each recipient's inbox. *)
Theorem sent_message_is_delivered F u c ids now db :
  well_numbered db ->
  F MessageCreate = None -> F MessageUpdate = None -> F MessageFindMany = None ->
  c <> "" -> ids <> [] -> forallb (is_user db) ids = true ->
  validateMessagePermissions u "STUDENT" None = true ->
  let stored :=
    mkMessage (next_id db) (user_id u) c "INDIVIDUAL" None None (connect [] ids)
      false now in
  exists db' echoed,
    sendMessage F (Some u) (mkSendMessageBody (Some c) None None (Some ids)) now db =
      (db', Returned (mkResponse 201 "Message sent successfully" (MessageData echoed))) /\
    messages db' = messages db ++ [stored] /\
    (forall x, In x ids <-> In x (msg_recipients stored)) /\
    forall r, In (user_id r) ids ->
      (exists thread,
         getConversationWithUser F (Some u) (user_id r) db' =
           (db', Returned (mkResponse 200 "" (MessagesData thread))) /\
         In stored thread) /\
      (exists inbox,
         getConversations F (Some r) db' =
           (db', Returned (mkResponse 200 "" (MessagesData inbox))) /\
         In stored inbox).
Proof.
  intros Hwn H1 H2 H3 Hc Hids Husers Hgate stored.
  destruct ids as [|i ids]; [congruence |].
  set (body := mkSendMessageBody (Some c) None None (Some (i :: ids))).
  set (d := mkSendMessageData c None None (Some (i :: ids))).
  assert (Hd : sendMessageSchema body = Some d).
  { unfold sendMessageSchema, body.
    cbn [body_content body_targetRole body_targetBranch body_recipientIds].
    now rewrite (content_accepted c Hc). }
  set (m0 := mkMessage (next_id db) (user_id u) c "INDIVIDUAL" None None [] false now).
  set (db1 := with_next_id (with_messages db (messages db ++ [m0])) (S (next_id db))).
  destruct (find_message_new db m0 Hwn eq_refl) as [Hfind _].
  destruct (find_message_new db stored Hwn eq_refl) as [_ Hmap].
  assert (Hconnect :
            message_update_connect F (next_id db) (i :: ids) db1 =
              (with_messages db1 (messages db ++ [stored]), Returned stored)).
  { unfold message_update_connect, Express.call, find_message. rewrite H2.
    change (messages db1) with (messages db ++ [m0]). rewrite Hfind.
    change (forallb (is_user db1) (i :: ids)) with (forallb (is_user db) (i :: ids)).
    rewrite Husers. f_equal. f_equal.
    rewrite List.map_app. simpl. rewrite Nat.eqb_refl.
    f_equal. exact Hmap. }
  exists (with_messages db1 (messages db ++ [stored])), m0.
  split; [| split; [reflexivity | split]].
  - rewrite (sendMessage_two_writes F u body d now db "INDIVIDUAL" i ids Hd Hgate
               eq_refl H1).
    change (message_update_connect F (next_id db) (i :: ids)
              (with_next_id
                 (with_messages db
                    (messages db ++
                     [mkMessage (next_id db) (user_id u) (content d) "INDIVIDUAL"
                        (or_null (targetRole d)) (or_null (targetBranch d)) []
                        false now]))
                 (S (next_id db))))
      with (message_update_connect F (next_id db) (i :: ids) db1).
    now rewrite Hconnect.
  - intros x. unfold stored. cbn [msg_recipients].
    rewrite <- (includes_In (connect [] (i :: ids))), <- (includes_In (i :: ids)).
    now rewrite includes_connect.
  - intros r Hr.
    assert (Hinc : includes (msg_recipients stored) (user_id r) = true).
    { unfold stored. cbn [msg_recipients]. rewrite includes_connect.
      apply includes_In in Hr. now rewrite Hr. }
    split.
    + eexists. split; [now apply getConversationWithUser_sorts |].
      apply In_sort_by, filter_In. split.
      * simpl. apply in_or_app. right. now left.
      * unfold express_between. simpl msg_senderId.
        now rewrite String.eqb_refl, Hinc.
    + eexists. split; [now apply getConversations_lists |].
      apply In_sort_by, filter_In. split.
      * simpl. apply in_or_app. right. now left.
      * unfold involves. now rewrite Hinc, orb_true_r.
Qed.

Lemma sent_message_is_delivered_witness :
  let o1 := mkUser "o1" "OFFICIAL" None in
  let t1 := mkUser "t1" "TEACHER" (Some "IT") in
  let db := mkDb [o1; t1] [] ∅ ∅ ∅ 0 [] in
  exists db' echoed,
    sendMessage Express.no_faults (Some o1)
      (mkSendMessageBody (Some "Meeting at 5") None None (Some ["t1"])) 9 db =
      (db', Returned (mkResponse 201 "Message sent successfully" (MessageData echoed))) /\
    messages db' =
      [mkMessage 0 "o1" "Meeting at 5" "INDIVIDUAL" None None ["t1"] false 9].
Proof.
  intros o1 t1 db.
  destruct (sent_message_is_delivered Express.no_faults o1 "Meeting at 5" ["t1"] 9 db)
    as (db' & echoed & Hrun & Hmsgs & _);
    [constructor | reflexivity | reflexivity | reflexivity | discriminate
    | discriminate | reflexivity | reflexivity |].
  exists db', echoed. split; [exact Hrun | exact Hmsgs].
Defined.

End Delivery.

(** ** The recipients of the stored message *)

Section ResolvedRecipients.
Import Express Handlers.








End ResolvedRecipients.

(** ** Listing and marking notifications *)

Section NotificationLists.
Import Express Handlers.

Lemma In_map_to_list {A} (m : gmap nat A) (i : nat) (x : A) :
  In (i, x) (map_to_list m) <-> m !! i = Some x.
Proof. rewrite <- list_elem_of_In. apply elem_of_map_to_list. Qed.

Lemma getNotifications_lists G u db :
  G NotificationFindMany = None ->
  getNotifications G (Some u) db =
    (db, Returned (mkAnswer 200 ""
       (Some (sort_by (fun r => - notif_createdAt (snd r))
                (List.filter (fun r => String.eqb (notif_userId (snd r)) (user_id u))
                   (map_to_list (notifications db))))))).
Proof.
  intros HG. unfold getNotifications. run_handlers; first [reflexivity | congruence].
Qed.

(** X10. [getNotifications] lists the notifications of the caller and no
    one else's: a row is listed exactly when the table holds it under that
    id with the caller as its user; the list is newest first and the table
    is not written. *)
Theorem getNotifications_own_only G u db :
  G NotificationFindMany = None ->
  exists rows,
    getNotifications G (Some u) db = (db, Returned (mkAnswer 200 "" (Some rows))) /\
    StronglySorted (key_le (fun r => - notif_createdAt (snd r))) rows /\
    forall id n, In (id, n) rows <->
      notifications db !! id = Some n /\ notif_userId n = user_id u.
Proof.
  intros HG. eexists. split; [now apply getNotifications_lists |].
  split; [apply sort_by_sorted |].
  intros id n. rewrite In_sort_by, filter_In, In_map_to_list. simpl.
  now rewrite String.eqb_eq.
Qed.

Lemma getNotifications_own_only_witness :
  let s1 := mkUser "s1" "STUDENT" (Some "CSE") in
  let n1 := mkNotification "s1" "like" "p1" "Bob liked your post" false 5 in
  let n2 := mkNotification "s2" "message" "m1" "New message" false 6 in
  let db := mkDb [s1] [] ∅ ∅ {[ 0%nat := n1; 1%nat := n2 ]} 2 [] in
  exists rows,
    getNotifications no_faults (Some s1) db = (db, Returned (mkAnswer 200 "" (Some rows))) /\
    In (0%nat, n1) rows /\ ~ In (1%nat, n2) rows.
Proof.
  intros s1 n1 n2 db.
  destruct (getNotifications_own_only no_faults s1 db eq_refl) as (rows & Hrun & _ & Hrows).
  exists rows. split; [exact Hrun |]. split.
  - apply Hrows. split; reflexivity.
  - intros [_ Hown]%Hrows. discriminate.
Defined.

Lemma set_read_again (n : Notification) :
  notif_isRead n = true -> set_notif_isRead n true = n.
Proof. destruct n. simpl. now intros ->. Qed.

(** X11. [markAllNotificationsAsRead] marks every notification of the
    caller as read and touches nothing else: the notifications of other
    users are as they were, no row appears or disappears, the other tables
    are unchanged, and a second call changes nothing. *)
Theorem markAll_marks_own_only G u db :
  G NotificationUpdateMany = None ->
  exists db',
    markAllNotificationsAsRead G (Some u) db =
      (db', Returned (reply 200 "All notifications marked as read")) /\
    (forall id,
       notifications db' !! id =
       (fun n => if String.eqb (notif_userId n) (user_id u)
                 then set_notif_isRead n true else n) <$> notifications db !! id) /\
    (forall id n, notifications db' !! id = Some n ->
       notif_userId n = user_id u -> notif_isRead n = true) /\
    users db' = users db /\ messages db' = messages db /\ posts db' = posts db /\
    comments db' = comments db /\
    markAllNotificationsAsRead G (Some u) db' =
      (db', Returned (reply 200 "All notifications marked as read")).
Proof.
  intros HG.
  set (mark := fun n => if String.eqb (notif_userId n) (user_id u) && negb (notif_isRead n)
                        then set_notif_isRead n true else n).
  assert (Hmark : forall n, mark n =
            if String.eqb (notif_userId n) (user_id u) then set_notif_isRead n true else n).
  { intros n. unfold mark. destruct (String.eqb _ _); simpl; [| reflexivity].
    destruct (notif_isRead n) eqn:E; simpl; [| reflexivity].
    symmetry. now apply set_read_again. }
  assert (Hrun : forall d,
            markAllNotificationsAsRead G (Some u) d =
              (with_notifications d (mark <$> notifications d),
               Returned (reply 200 "All notifications marked as read"))).
  { intros d. unfold markAllNotificationsAsRead.
    run_handlers; first [reflexivity | congruence]. }
  exists (with_notifications db (mark <$> notifications db)).
  split; [apply Hrun |]. split; [| split].
  - intros id. simpl. rewrite lookup_fmap.
    destruct (notifications db !! id); simpl; [f_equal; apply Hmark | reflexivity].
  - intros id n. simpl. rewrite lookup_fmap.
    destruct (notifications db !! id) as [n0|]; simpl; [| discriminate].
    intros [= <-]. rewrite Hmark.
    destruct (String.eqb_spec (notif_userId n0) (user_id u)); simpl; [reflexivity |].
    congruence.
  - repeat split. rewrite Hrun. f_equal. unfold with_notifications. simpl. f_equal.
    rewrite <- map_fmap_compose. apply map_fmap_ext. intros id n _. simpl.
    rewrite !Hmark.
    destruct (String.eqb (notif_userId n) (user_id u)) eqn:E; simpl; now rewrite ?E.
Qed.

Lemma markAll_marks_own_only_witness :
  let s1 := mkUser "s1" "STUDENT" (Some "CSE") in
  let n1 := mkNotification "s1" "like" "p1" "Bob liked your post" false 5 in
  let n2 := mkNotification "s2" "message" "m1" "New message" false 6 in
  let db := mkDb [s1] [] ∅ ∅ {[ 0%nat := n1; 1%nat := n2 ]} 2 [] in
  exists db',
    markAllNotificationsAsRead no_faults (Some s1) db =
      (db', Returned (reply 200 "All notifications marked as read")) /\
    notifications db' !! 0%nat = Some (set_notif_isRead n1 true) /\
    notifications db' !! 1%nat = Some n2.
Proof.
  intros s1 n1 n2 db.
  destruct (markAll_marks_own_only no_faults s1 db eq_refl) as (db' & Hrun & Hrows & _).
  exists db'. split; [exact Hrun |].
  split; rewrite Hrows; reflexivity.
Defined.

(** X12. A notification written by [createNotification] is listed, unread,
    by [getNotifications] for the user it names. *)
Theorem created_notification_is_listed F G u type referenceId content now db :
  F NotificationCreate = None -> G NotificationFindMany = None ->
  let db' := fst (createNotification F (user_id u) type referenceId content now db) in
  exists rows,
    getNotifications G (Some u) db' = (db', Returned (mkAnswer 200 "" (Some rows))) /\
    In (next_id db, mkNotification (user_id u) type referenceId content false now) rows.
Proof.
  intros HF HG db'. eexists. split; [now apply getNotifications_lists |].
  apply In_sort_by, filter_In. split.
  - apply In_map_to_list. unfold db', createNotification, notification_create,
      Express.call, catch, bind, ret. rewrite HF. simpl. apply lookup_insert_eq.
  - simpl. apply String.eqb_refl.
Qed.

Lemma created_notification_is_listed_witness :
  let s1 := mkUser "s1" "STUDENT" (Some "CSE") in
  let db := mkDb [s1] [] ∅ ∅ ∅ 0 [] in
  let db' := fst (createNotification Express.no_faults "s1" "like" "p1" "liked" 4 db) in
  exists rows,
    getNotifications no_faults (Some s1) db' = (db', Returned (mkAnswer 200 "" (Some rows))) /\
    In (0%nat, mkNotification "s1" "like" "p1" "liked" false 4) rows.
Proof.
  intros s1 db db'.
  exact (created_notification_is_listed Express.no_faults no_faults s1 "like" "p1"
           "liked" 4 db eq_refl eq_refl).
Defined.

Lemma notification_not_owner F u id db n :
  F NotificationFindUnique = None ->
  notifications db !! id = Some n -> notif_userId n <> user_id u ->
  markNotificationAsRead F (Some u) id db =
    (db, Returned (reply 403 "Insufficient permissions")) /\
  deleteNotification F (Some u) id db =
    (db, Returned (reply 403 "Insufficient permissions")).
Proof.
  intros HF Hn Hu. apply String.eqb_neq in Hu.
  unfold markNotificationAsRead, deleteNotification, notification_findUnique,
    notification_update, notification_delete, Express.call.
  split; run_effects; try first [reflexivity | congruence].
  all: rewrite Hu in *; discriminate.
Qed.

(** X13. A notification is marked as read or deleted by its own user only:
    anyone else is answered 403 and nothing is written.  The owner's call
    rewrites, or removes, that one row and leaves every other notification
    as it was. *)
Theorem notification_touched_by_owner_only F u id db n :
  F NotificationFindUnique = None -> notifications db !! id = Some n ->
  (notif_userId n <> user_id u ->
     markNotificationAsRead F (Some u) id db =
       (db, Returned (reply 403 "Insufficient permissions")) /\
     deleteNotification F (Some u) id db =
       (db, Returned (reply 403 "Insufficient permissions"))) /\
  (notif_userId n = user_id u -> F NotificationUpdate = None ->
     let db' := fst (markNotificationAsRead F (Some u) id db) in
     notifications db' !! id = Some (set_notif_isRead n true) /\
     forall id', id' <> id -> notifications db' !! id' = notifications db !! id') /\
  (notif_userId n = user_id u -> F NotificationDelete = None ->
     let db' := fst (deleteNotification F (Some u) id db) in
     notifications db' !! id = None /\
     forall id', id' <> id -> notifications db' !! id' = notifications db !! id').
Proof.
  intros HF Hn. split; [| split].
  - now apply notification_not_owner.
  - intros Hu HU. now apply (markNotificationAsRead_one_row F u id db n).
  - intros Hu HD. now apply (deleteNotification_one_row F u id db n).
Qed.

Lemma notification_touched_by_owner_only_witness :
  let s1 := mkUser "s1" "STUDENT" (Some "CSE") in
  let s2 := mkUser "s2" "STUDENT" (Some "IT") in
  let n1 := mkNotification "s1" "like" "p1" "Bob liked your post" false 5 in
  let db := mkDb [s1; s2] [] ∅ ∅ {[ 0%nat := n1 ]} 1 [] in
  markNotificationAsRead Express.no_faults (Some s2) 0%nat db =
    (db, Returned (reply 403 "Insufficient permissions")) /\
  notifications (fst (markNotificationAsRead Express.no_faults (Some s1) 0%nat db))
    !! 0%nat = Some (set_notif_isRead n1 true).
Proof.
  intros s1 s2 n1 db. split.
  - refine (proj1 (proj1 (notification_touched_by_owner_only Express.no_faults s2
                            0%nat db n1 eq_refl eq_refl) _)).
    discriminate.
  - exact (proj1 (proj1 (proj2 (notification_touched_by_owner_only Express.no_faults
                                  s1 0%nat db n1 eq_refl eq_refl)) eq_refl eq_refl)).
Defined.

End NotificationLists.

(** ** Editing posts and comments *)

Section Edits.
Import Express Handlers.

Lemma updatePost_rows F user id c db db' r :
  updatePost F user id c db = (db', Returned r) ->
  comments db' = comments db /\
  forall i,
    posts db' !! i = posts db !! i \/
    exists p x,
      i = id /\ posts db !! id = Some p /\ user_id <$> user = Some (post_authorId p) /\
      contentSchema c = Some x /\ posts db' !! i = Some (set_post_content p x).
Proof.
  unfold updatePost. run_handlers; intros; simplify_eq; simpl;
    (split; [reflexivity |]); intros i; auto.
  destruct (decide (i = id)) as [-> | Hne].
  - right. eexists _, _. repeat split; try eassumption.
    + match goal with H : negb (String.eqb _ _) = false |- _ =>
        apply negb_false_iff, String.eqb_eq in H; now rewrite H end.
    + apply lookup_insert_eq.
  - left. now apply lookup_insert_ne.
Qed.

Lemma updateComment_rows F user id c db db' r :
  updateComment F user id c db = (db', Returned r) ->
  posts db' = posts db /\
  forall i,
    comments db' !! i = comments db !! i \/
    exists k x,
      i = id /\ comments db !! id = Some k /\
      user_id <$> user = Some (comment_authorId k) /\
      contentSchema c = Some x /\ comments db' !! i = Some (set_comment_content k x).
Proof.
  unfold updateComment. run_handlers; intros; simplify_eq; simpl;
    (split; [reflexivity |]); intros i; auto.
  destruct (decide (i = id)) as [-> | Hne].
  - right. eexists _, _. repeat split; try eassumption.
    + match goal with H : negb (String.eqb _ _) = false |- _ =>
        apply negb_false_iff, String.eqb_eq in H; now rewrite H end.
    + apply lookup_insert_eq.
  - left. now apply lookup_insert_ne.
Qed.

(** X14. [updatePost] and [updateComment] write the content and nothing
    else: whatever the answer, every post and every comment is as it was,
    except the one edited, which differs by its content only (likes,
    likedBy, commentCount, author and date are kept) and only when the caller
    is its author and the new content is not empty.  No row is added or
    removed. *)
Theorem edits_change_content_only :
  (forall F user id c db db' r,
     updatePost F user id c db = (db', Returned r) ->
     comments db' = comments db /\
     forall i,
       posts db' !! i = posts db !! i \/
       exists p x,
         i = id /\ posts db !! id = Some p /\
         user_id <$> user = Some (post_authorId p) /\
         contentSchema c = Some x /\
         posts db' !! i =
           Some (mkPost (post_authorId p) x (post_mediaUrl p) (post_mediaType p)
                   (post_likes p) (post_likedBy p) (post_commentCount p)
                   (post_createdAt p))) /\
  (forall F user id c db db' r,
     updateComment F user id c db = (db', Returned r) ->
     posts db' = posts db /\
     forall i,
       comments db' !! i = comments db !! i \/
       exists k x,
         i = id /\ comments db !! id = Some k /\
         user_id <$> user = Some (comment_authorId k) /\
         contentSchema c = Some x /\
         comments db' !! i =
           Some (mkComment (comment_postId k) (comment_authorId k) x
                   (comment_likes k) (comment_likedBy k) (comment_createdAt k))).
Proof. split; [exact updatePost_rows | exact updateComment_rows]. Qed.

Lemma edits_change_content_only_witness :
  let alice := mkUser "alice" "STUDENT" (Some "CSE") in
  let bob := mkUser "bob" "STUDENT" (Some "CSE") in
  let post := mkPost "alice" "hello" None None 2 ["bob"; "carol"] 1 3 in
  let db := mkDb [alice; bob] [] {[ 0%nat := post ]} ∅ ∅ 1 [] in
  posts (fst (updatePost Express.no_faults (Some bob) 0%nat (Some "hacked") db)) !! 0%nat
    = Some post /\
  posts (fst (updatePost Express.no_faults (Some alice) 0%nat (Some "edited") db)) !! 0%nat
    = Some (mkPost "alice" "edited" None None 2 ["bob"; "carol"] 1 3).
Proof.
  intros alice bob post db.
  destruct edits_change_content_only as [Hpost _]. split.
  - destruct (Hpost Express.no_faults (Some bob) 0%nat (Some "hacked") db _ _ eq_refl)
      as [_ Hrows].
    destruct (Hrows 0%nat) as [H | (p & x & _ & Hp & Hauthor & _)]; [exact H |].
    vm_compute in Hp. injection Hp as <-. discriminate.
  - reflexivity.
Defined.

End Edits.

(** ** The comment counter against the comments *)

Section Counted.
Import Express Handlers.

















End Counted.

(** ** Pagination *)

Section Pages.
Import Express Handlers.

Lemma ceil_div_bounds (a b : Z) :
  0 < b -> a <= ceil_div a b * b /\ (ceil_div a b - 1) * b < a.
Proof.
  intros Hb. unfold ceil_div.
  pose proof (Z.div_mod (- a) b ltac:(lia)) as Hdm.
  pose proof (Z.mod_pos_bound (- a) b Hb) as Hmod.
  nia.
Qed.

Lemma skipn_skipn {A} (n k : nat) (l : list A) : skipn n (skipn k l) = skipn (k + n) l.
Proof.
  revert l. induction k as [|k IH]; intros l; simpl; [reflexivity |].
  destruct l as [|x l]; [now destruct n | apply IH].
Qed.

(** Cutting a list in consecutive pages of [n] rows loses and repeats
    nothing. *)
Lemma pages_concat {A} (n k : nat) (l : list A) :
  (0 < n)%nat -> (length l <= k * n)%nat ->
  concat (List.map (fun i => firstn n (skipn (i * n) l)) (seq 0 k)) = l.
Proof.
  intros Hn. revert l. induction k as [|k IH]; intros l Hlen; simpl.
  - destruct l; [reflexivity | simpl in Hlen; lia].
  - rewrite <- seq_shift, List.map_map.
    transitivity (firstn n l ++ skipn n l); [| apply firstn_skipn].
    f_equal. rewrite <- (IH (skipn n l)) by (rewrite length_skipn; lia).
    f_equal. apply List.map_ext. intros i. f_equal.
    rewrite skipn_skipn. f_equal; lia.
Qed.





Lemma pages_cover {A} (limit : Z) (rows : list A) :
  1 <= limit ->
  let pages := ceil_div (Z.of_nat (length rows)) limit in
  concat (List.map (fun i => firstn (Z.to_nat limit) (skipn (i * Z.to_nat limit) rows))
            (seq 0 (Z.to_nat pages))) = rows /\
  (forall i, pages <= Z.of_nat i ->
     firstn (Z.to_nat limit) (skipn (i * Z.to_nat limit) rows) = []) /\
  (0 < Z.of_nat (length rows) -> (pages - 1) * limit < Z.of_nat (length rows)).
Proof.
  intros Hl pages.
  destruct (ceil_div_bounds (Z.of_nat (length rows)) limit ltac:(lia)) as [Hup Hlow].
  fold pages in Hup, Hlow. split; [| split].
  - apply pages_concat; [lia |]. nia.
  - intros i Hi. rewrite skipn_all2; [now destruct (Z.to_nat limit) |]. nia.
  - intros _. exact Hlow.
Qed.





(** X18. [getAllPosts] without parameters, or with page 0 and limit 0, is
    page 1 with limit 10.  A negative page with a positive limit makes the
    store reject the negative [skip]: the answer is 500, not 400, and the
    error is logged. *)
Theorem getAllPosts_defaults_and_negative_page G beyond db :
  getAllPosts G beyond None None db = getAllPosts G beyond (Some 1) (Some 10) db /\
  getAllPosts G beyond (Some 0) (Some 0) db =
    getAllPosts G beyond (Some 1) (Some 10) db /\
  (forall page limit,
     page < 0 -> 0 < limit -> G PostFindMany = None ->
     getAllPosts G beyond (Some page) (Some limit) db =
       (console_error "Get all posts error:" invalid_skip db,
        Returned (refuse 500 "Internal server error"))).
Proof.
  split; [reflexivity |]. split; [reflexivity |].
  intros page limit Hp Hl HG.
  unfold getAllPosts, post_findMany_desc, call, catch, bind, ret, window.
  rewrite HG.
  assert (Hpage : number_or (Some page) 1 = page).
  { unfold number_or. destruct (Z.eqb_spec page 0); [lia | reflexivity]. }
  assert (Hlimit : number_or (Some limit) 10 = limit).
  { unfold number_or. destruct (Z.eqb_spec limit 0); [lia | reflexivity]. }
  rewrite Hpage, Hlimit.
  destruct (Z.ltb_spec ((page - 1) * limit) 0) as [H | H]; [reflexivity | nia].
Qed.

Lemma getAllPosts_defaults_and_negative_page_witness :
  getAllPosts no_faults strict_engine (Some (-1)) (Some 10) empty_db =
    (console_error "Get all posts error:" invalid_skip empty_db,
     Returned (refuse 500 "Internal server error")).
Proof.
  apply (proj2 (proj2 (getAllPosts_defaults_and_negative_page no_faults strict_engine
                         empty_db)));
    [lia | lia | reflexivity].
Defined.

End Pages.

(** ** The Convex queries *)

Section ConvexQueries.
Import Convex ConvexRest.

Lemma slice_window {A} (l : list A) (offset limit : Z) :
  0 <= offset -> 0 <= limit ->
  slice l offset (offset + limit) =
    firstn (Z.to_nat limit) (skipn (Z.to_nat offset) l).
Proof.
  intros Ho Hl. unfold slice.
  destruct (Z.ltb_spec offset 0); [lia |].
  destruct (Z.ltb_spec (offset + limit) 0); [lia |].
  destruct (Z_le_gt_dec (Z.of_nat (length l)) offset) as [Hbig | Hsmall].
  - rewrite (skipn_all2 (n := Z.to_nat offset) l) by lia.
    rewrite (skipn_all2 (n := Z.to_nat (Z.min offset (Z.of_nat (length l)))) l) by lia.
    now rewrite !firstn_nil.
  - rewrite (Z.min_l offset) by lia.
    destruct (Z_le_gt_dec (offset + limit) (Z.of_nat (length l))) as [Hin | Hout].
    + rewrite (Z.min_l (offset + limit)) by lia. do 2 f_equal. lia.
    + rewrite (Z.min_r (offset + limit)) by lia.
      rewrite !firstn_all2; [reflexivity | |]; rewrite length_skipn; lia.
Qed.

Lemma slice_length {A} (l : list A) (start limit : Z) :
  0 <= limit -> Z.of_nat (length (slice l start (start + limit))) <= limit.
Proof.
  intros Hl. unfold slice. rewrite length_firstn.
  destruct (Z.ltb_spec start 0), (Z.ltb_spec (start + limit) 0); lia.
Qed.

Lemma sorted_weaken {A} (R R' : A -> A -> Prop) (l : list A) :
  (forall x y, R x y -> R' x y) -> StronglySorted R l -> StronglySorted R' l.
Proof.
  intros H. induction 1 as [|x l _ IH Hx]; constructor; [exact IH |].
  eapply List.Forall_impl; [| exact Hx]. auto.
Qed.

Lemma number_or_some (k d : Z) : k <> 0 -> number_or (Some k) d = k.
Proof. intros H. unfold number_or. destruct (Z.eqb_spec k 0); [lia | reflexivity]. Qed.

(** X19. [getPosts] cuts the posts, newest first, in windows.  With
    [limit >= 1], the window at offset [i * limit] holds rows [i * limit] to
    [(i + 1) * limit - 1]; the windows at offsets 0, [limit], [2 * limit],
    ... put end to end are all the posts, each once, and a window past the
    end is empty.  A limit that is absent or 0 is 20, and whatever the
    offset, negative included, a window never holds more than [limit]
    rows. *)
Theorem convex_getPosts_windows limit s :
  1 <= limit ->
  let all := posts_desc s in
  let pages := Handlers.ceil_div (Z.of_nat (length all)) limit in
  let window := fun i => firstn (Z.to_nat limit) (skipn (i * Z.to_nat limit) all) in
  (forall i, getPosts (Some limit) (Some (Z.of_nat i * limit)) s = window i) /\
  concat (List.map window (seq 0 (Z.to_nat pages))) = all /\
  (forall i, pages <= Z.of_nat i -> window i = []) /\
  (forall offset, Z.of_nat (length (getPosts (Some limit) offset s)) <= limit) /\
  (forall offset, getPosts None offset s = getPosts (Some 20) offset s) /\
  (forall offset, getPosts (Some 0) offset s = getPosts (Some 20) offset s) /\
  (forall id p, In (id, p) all <-> posts s !! id = Some p) /\
  StronglySorted (fun r r' => (fst r' <= fst r)%nat) all.
Proof.
  intros Hl all pages window.
  destruct (pages_cover limit all Hl) as (Hcat & Hlate & _).
  split; [| split; [exact Hcat | split; [exact Hlate |]]].
  - intros i. unfold getPosts. fold all. rewrite (number_or_some limit 20) by lia.
    assert (Ho : number_or (Some (Z.of_nat i * limit)) 0 = Z.of_nat i * limit).
    { unfold number_or. destruct (Z.eqb_spec (Z.of_nat i * limit) 0) as [-> | _];
        reflexivity. }
    rewrite Ho, slice_window by nia. unfold window. do 2 f_equal. nia.
  - split; [| split; [reflexivity | split; [reflexivity | split]]].
    + intros offset. unfold getPosts. rewrite (number_or_some limit 20) by lia.
      apply slice_length. lia.
    + intros id p. unfold all, posts_desc. now rewrite In_sort_by, In_map_to_list.
    + apply (sorted_weaken (key_le (fun r : nat * Post => - Z.of_nat (fst r))));
        [unfold key_le; intros; lia | apply sort_by_sorted].
Qed.

Lemma convex_getPosts_windows_witness :
  let s :=
    fst (createPost "c" "third" None None 3
      (fst (createPost "b" "second" None None 2
        (fst (createPost "a" "first" None None 1 empty_store))))) in
  getPosts (Some 2) (Some 2) s = [(0%nat, mkPost "a" "first" None None 0 [] 0 1)].
Proof.
  intros s.
  destruct (convex_getPosts_windows 2 s ltac:(lia)) as [Hwin _].
  etransitivity; [exact (Hwin 1%nat) | reflexivity].
Defined.

(** X20. [getConversation] does not depend on the order of its two
    arguments, and it returns nothing when both are the same user.  It
    returns messages for one pair of arguments only, the words
    ['senderId'] and ['recipientIds'] in either order, and then it returns
    the whole table by timestamp, whoever sent and whoever received. *)
Theorem getConversation_symmetric_and_self a b s :
  getConversation a b s = getConversation b a s /\
  getConversation a a s = [] /\
  (getConversation a b s <> [] ->
     (a = "senderId" /\ b = "recipientIds" \/ a = "recipientIds" /\ b = "senderId") /\
     getConversation a b s = sort_by msg_timestamp (messages s)) /\
  getConversation "senderId" "recipientIds" s = sort_by msg_timestamp (messages s).
Proof.
  split; [| split; [| split]].
  - rewrite !getConversation_selects. now rewrite orb_comm.
  - rewrite getConversation_selects.
    destruct (String.eqb_spec "senderId" a) as [<- | _]; reflexivity.
  - rewrite getConversation_selects.
    destruct ((String.eqb "senderId" a && String.eqb "recipientIds" b)
              || (String.eqb "senderId" b && String.eqb "recipientIds" a)) eqn:E;
      [| congruence].
    intros _. split; [| reflexivity].
    apply orb_true_iff in E as [E | E]; apply andb_true_iff in E as [E1 E2];
      apply String.eqb_eq in E1; apply String.eqb_eq in E2; subst; auto.
  - now rewrite getConversation_selects.
Qed.

(** X21. A comment on a post that does not exist: the Express
    [createComment] answers 404 and writes nothing, while the Convex
    [createComment] stores the comment, changes no post and returns the new
    id. *)
Theorem createComment_on_missing_post :
  (forall F u postId c x now db,
     F Express.PostFindUnique = None -> Express.contentSchema c = Some x ->
     Express.posts db !! postId = None ->
     Express.createComment F (Some u) postId c now db =
       (db, Returned (Express.reply 404 "Post not found"))) /\
  (forall postId authorId content now s,
     posts s !! postId = None ->
     createComment postId authorId content now s =
       (mkStore (messages s) (posts s)
          (<[next_id s := mkComment postId authorId content 0 [] now]> (comments s))
          (notifications s) (S (next_id s)),
        Returned (next_id s))).
Proof.
  split.
  - intros F u postId c x now db HF Hx Hp. run_express; congruence.
  - intros postId authorId content now s Hp. run_convex; simpl in *; congruence.
Qed.

Lemma createComment_on_missing_post_witness :
  Express.createComment Express.no_faults
    (Some (Express.mkUser "a" "STUDENT" None)) 7%nat (Some "hi") 1 Express.empty_db =
    (Express.empty_db, Returned (Express.reply 404 "Post not found")) /\
  comments (fst (createComment 7%nat "a" "hi" 1 empty_store)) !! 0%nat =
    Some (mkComment 7 "a" "hi" 0 [] 1).
Proof.
  destruct createComment_on_missing_post as [HE HC]. split.
  - apply (HE Express.no_faults _ 7%nat (Some "hi") "hi"); reflexivity.
  - rewrite (HC 7%nat "a" "hi" 1 empty_store eq_refl). reflexivity.
Defined.

End ConvexQueries.

(** ** The role guard, the user lookup and the Convex read mark *)

Section Guards.
Import Express Handlers.

(** X22. [checkRole] calls [next()] exactly for the authenticated users whose
    role is one of the allowed roles; the others are answered 403, and a
    request without user 401.  A longer list of roles lets through
    everyone a shorter one did. *)
Theorem checkRole_members_only :
  (forall allowedRoles,
     checkRole allowedRoles None = Responded (reply 401 "Authentication required")) /\
  (forall allowedRoles u,
     checkRole allowedRoles (Some u) = Continue tt <-> In (user_role u) allowedRoles) /\
  (forall allowedRoles u,
     ~ In (user_role u) allowedRoles ->
     checkRole allowedRoles (Some u) = Responded (reply 403 "Insufficient permissions")) /\
  (forall allowedRoles more user,
     (forall r, In r allowedRoles -> In r more) ->
     checkRole allowedRoles user = Continue tt -> checkRole more user = Continue tt).
Proof.
  assert (Hiff : forall allowedRoles u,
            checkRole allowedRoles (Some u) = Continue tt <->
            In (user_role u) allowedRoles).
  { intros allowedRoles u. rewrite <- includes_In. unfold checkRole.
    destruct (includes allowedRoles (user_role u)); simpl; split; congruence. }
  split; [reflexivity |]. split; [exact Hiff |]. split.
  - intros allowedRoles u Hn. apply includes_false in Hn.
    unfold checkRole. now rewrite Hn.
  - intros allowedRoles more [u |] Hsub; [| discriminate].
    rewrite !Hiff. auto.
Qed.

Lemma getUserById_found G id db u :
  G UserFindUnique = None -> find_user db id = Some u ->
  getUserById G id db = (db, Returned (mkAnswer 200 "" (Some u))).
Proof. intros HG Hfind. unfold getUserById. run_handlers; congruence. Qed.

Lemma updateUser_stores G user id branch db db' u :
  G UserFindUnique = None ->
  updateUser G user id branch db =
    (db', Returned (mkAnswer 200 "User updated successfully" (Some u))) ->
  find_user db' id = Some u.
Proof.
  intros HG. unfold updateUser. run_handlers; intros; simplify_eq.
  all: unfold find_user; simpl.
  all: match goal with
       | H : find_user _ _ = Some ?cur |- _ =>
           apply find_rewritten; simpl;
           apply find_some in H as [_ H]; now apply String.eqb_eq in H
       end.
Qed.

(** X23. [getUserById] reads what [updateUser] wrote: when [updateUser]
    answers 200 with a user, [getUserById] for the same id then answers 200
    with that very user.  [getUserById] answers 200 only with a stored user
    of the id asked for, 404 exactly when no stored user has it, and never
    writes. *)
Theorem getUserById_reads_updates G :
  G UserFindUnique = None ->
  (forall user id branch db db' u,
     updateUser G user id branch db =
       (db', Returned (mkAnswer 200 "User updated successfully" (Some u))) ->
     getUserById G id db' = (db', Returned (mkAnswer 200 "" (Some u)))) /\
  (forall id db u,
     getUserById G id db = (db, Returned (mkAnswer 200 "" (Some u))) ->
     In u (users db) /\ user_id u = id) /\
  (forall id db,
     getUserById G id db = (db, Returned (refuse 404 "User not found")) <->
     (forall u, In u (users db) -> user_id u <> id)) /\
  (forall id db, fst (getUserById G id db) = db).
Proof.
  intros HG. split; [| split; [| split]].
  - intros user id branch db db' u Hup.
    apply getUserById_found; [exact HG |].
    exact (updateUser_stores G user id branch db db' u HG Hup).
  - intros id db u. unfold getUserById. run_handlers; try congruence;
      try discriminate.
    intros Heq. simplify_eq.
    match goal with
    | H : find_user _ _ = Some _ |- _ => apply find_some in H as [Hin He]
    end.
    split; [exact Hin | now apply String.eqb_eq].
  - intros id db. unfold getUserById. run_handlers; try congruence.
    + split; [discriminate |]. intros Hnone.
      match goal with
      | H : find_user _ _ = Some _ |- _ => apply find_some in H as [Hin He]
      end.
      apply String.eqb_eq in He. now destruct (Hnone _ Hin).
    + split; [| reflexivity]. intros _ u Hin He.
      match goal with
      | H : find_user _ _ = None |- _ =>
          pose proof (find_none _ _ H u Hin) as Hn
      end.
      simpl in Hn. apply String.eqb_neq in Hn. contradiction.
  - intros id db. unfold getUserById. run_handlers; congruence.
Qed.

Lemma getUserById_reads_updates_witness :
  let db :=
    mkDb [mkUser "t1" "TEACHER" (Some "IT"); mkUser "s1" "STUDENT" (Some "CSE")]
      [] ∅ ∅ ∅ 0 [] in
  let db' := fst (updateUser no_faults (Some (mkUser "s1" "STUDENT" (Some "CSE")))
                    "s1" (Some (Some "IT")) db) in
  getUserById no_faults "s1" db' =
    (db', Returned (mkAnswer 200 "" (Some (mkUser "s1" "STUDENT" (Some "IT"))))).
Proof.
  intros db db'.
  apply (proj1 (getUserById_reads_updates no_faults eq_refl)
           (Some (mkUser "s1" "STUDENT" (Some "CSE"))) "s1" (Some (Some "IT")) db).
  reflexivity.
Defined.

End Guards.

Section ConvexReadMark.
Import Convex ConvexRest.

(** X24. [markMessageRead] asks nothing about the caller.  For a stored
    message it returns [true] and sets [isRead] on the message with that id,
    in place: every other field, every other message and every other table
    is as it was, and the messages keep their order.  Marking again changes
    nothing.  For an id that is not stored it throws and the store is as
    before. *)
Theorem markMessageRead_marks_in_place messageId s :
  let mark := fun m => if Nat.eqb (msg_id m) messageId then set_isRead m true else m in
  let marked :=
    mkStore (List.map mark (messages s)) (posts s) (comments s) (notifications s)
      (next_id s) in
  ((exists m, In m (messages s) /\ msg_id m = messageId) ->
     markMessageRead messageId s = (marked, Returned true) /\
     markMessageRead messageId marked = (marked, Returned true) /\
     (forall m, In m (messages marked) -> msg_id m = messageId -> msg_isRead m = true) /\
     List.map msg_id (messages marked) = List.map msg_id (messages s) /\
     List.map msg_timestamp (messages marked) = List.map msg_timestamp (messages s)) /\
  ((forall m, In m (messages s) -> msg_id m <> messageId) ->
     markMessageRead messageId s = (s, Thrown "Update on nonexistent document")).
Proof.
  intros mark marked.
  assert (Hex : forall l,
            existsb (fun m => Nat.eqb (msg_id m) messageId) l = true <->
            exists m, In m l /\ msg_id m = messageId).
  { intros l. rewrite existsb_exists. split; intros (m & Hin & He); exists m;
      (split; [exact Hin | now apply Nat.eqb_eq]). }
  assert (Hid : forall m, msg_id (mark m) = msg_id m).
  { intros m. unfold mark. now destruct (Nat.eqb (msg_id m) messageId). }
  assert (Hidem : forall m, mark (mark m) = mark m).
  { intros m. unfold mark at 1. rewrite Hid. unfold mark.
    destruct (Nat.eqb (msg_id m) messageId); reflexivity. }
  split.
  - intros Hm. pose proof (proj2 (Hex (messages s)) Hm) as He.
    assert (He' : existsb (fun m => Nat.eqb (msg_id m) messageId)
                    (List.map mark (messages s)) = true).
    { apply Hex. destruct Hm as (m & Hin & Heq). exists (mark m).
      split; [now apply in_map | now rewrite Hid]. }
    split; [| split; [| split; [| split]]].
    + unfold markMessageRead, mutation, patch_message, bind, ret.
      now rewrite He.
    + unfold markMessageRead, mutation, patch_message, bind, ret.
      simpl. rewrite He'. unfold marked. do 2 f_equal.
      rewrite List.map_map. apply List.map_ext. exact Hidem.
    + simpl. intros m [x [<- Hx]]%in_map_iff. rewrite Hid. intros Heq.
      unfold mark. apply Nat.eqb_eq in Heq. now rewrite Heq.
    + simpl. rewrite List.map_map. apply List.map_ext. exact Hid.
    + simpl. rewrite List.map_map. apply List.map_ext.
      intros m. unfold mark. now destruct (Nat.eqb (msg_id m) messageId).
  - intros Hnone.
    assert (He : existsb (fun m => Nat.eqb (msg_id m) messageId) (messages s) = false).
    { apply not_true_is_false. intros Ht. apply Hex in Ht as (m & Hin & Heq).
      exact (Hnone m Hin Heq). }
    unfold markMessageRead, mutation, patch_message, bind, ret.
    now rewrite He.
Qed.

Lemma markMessageRead_marks_in_place_witness :
  let s := fst (sendMessage "B" "re" None None ["A"] 5
             (fst (sendMessage "A" "hi" None None ["B"] 4 empty_store))) in
  List.map msg_isRead (messages (fst (markMessageRead 1%nat s))) = [false; true].
Proof.
  intros s.
  destruct (markMessageRead_marks_in_place 1%nat s) as [Hmark _].
  destruct Hmark as (H1 & _).
  - eexists. split; [right; left; reflexivity | reflexivity].
  - rewrite H1. reflexivity.
Defined.

End ConvexReadMark.
